(** * Chawa Farms: the game core of [app.py]

    A shallow embedding of the farming simulation served by [app.py]:
    the static catalogs, the game-state initializer, the day-advancement
    engine and the action dispatcher with its in-memory store of saves.

    Modelling choices, all taken from the source:
    - Python [int] is [Z]; Python [float] is the primitive binary64
      [float] of the kernel, so [0.8 - 0.2 - 0.2 > 0.4] holds here exactly
      as it does in Python.  The [int] [0] that [max(0, x)] may return is
      represented by the float [0]: every later use of the value ([+ 0.4],
      [- 0.2], [> 0.4]) coerces it to that float.
    - [dict]s keyed by strings are [gmap string _]; [market_prices], the
      one dict the code iterates over while drawing random numbers, is an
      association list in insertion order.
    - [random.randint] consumes a sequence of raw draws that is threaded
      through the functions that use it.
    - The handlers mutate the dict stored in [game_saves] in place, so a
      handler returns the object as it is left behind, also when it
      raises. *)

From Stdlib Require Import ZArith Floats.
From stdpp Require Import gmap strings list fin_maps pretty.

Set Warnings "-inexact-float".
Local Open Scope Z_scope.

(** ** Data model *)

Record Region := {
  specialty : string;
  crops : list string;
  region_livestock : list string
}.

Record CropInfo := {
  growth_time : Z;
  yield : Z
}.

Record Field := {
  id : Z;
  crop : option string;
  status : string;
  water_level : float;
  growth_stage : Z;
  health : Z
}.

Record Livestock := {
  ls_type : string;
  ls_count : Z;
  ls_health : Z;
  ls_feed_level : float
}.

Record Quest := {
  quest_id : string;
  title : string;
  description : string;
  learning_point : string;
  is_complete : bool
}.

Record NasaData := {
  soil_moisture : float;
  precipitation_forecast : string;
  vegetation_index : float
}.

Record PlayerState := {
  playerName : string;
  region : string;
  region_info : option Region;
  currency : string;
  balance : Z;
  current_day : Z;
  fields : list Field;
  livestock : list Livestock;
  inventory : gmap string Z;
  active_quests : list Quest;
  market_prices : list (string * Z);
  nasa_data : option NasaData
}.

(** In-place updates of single keys of the two mutable records. *)

Definition set_crop (c : option string) (f : Field) : Field :=
  {| id := id f; crop := c; status := status f; water_level := water_level f;
     growth_stage := growth_stage f; health := health f |}.

Definition set_status (s : string) (f : Field) : Field :=
  {| id := id f; crop := crop f; status := s; water_level := water_level f;
     growth_stage := growth_stage f; health := health f |}.

Definition set_water_level (w : float) (f : Field) : Field :=
  {| id := id f; crop := crop f; status := status f; water_level := w;
     growth_stage := growth_stage f; health := health f |}.

Definition set_growth_stage (n : Z) (f : Field) : Field :=
  {| id := id f; crop := crop f; status := status f; water_level := water_level f;
     growth_stage := n; health := health f |}.

Definition set_balance (b : Z) (ps : PlayerState) : PlayerState :=
  {| playerName := playerName ps; region := region ps; region_info := region_info ps;
     currency := currency ps; balance := b; current_day := current_day ps;
     fields := fields ps; livestock := livestock ps; inventory := inventory ps;
     active_quests := active_quests ps; market_prices := market_prices ps;
     nasa_data := nasa_data ps |}.

Definition set_current_day (d : Z) (ps : PlayerState) : PlayerState :=
  {| playerName := playerName ps; region := region ps; region_info := region_info ps;
     currency := currency ps; balance := balance ps; current_day := d;
     fields := fields ps; livestock := livestock ps; inventory := inventory ps;
     active_quests := active_quests ps; market_prices := market_prices ps;
     nasa_data := nasa_data ps |}.

Definition set_fields (fs : list Field) (ps : PlayerState) : PlayerState :=
  {| playerName := playerName ps; region := region ps; region_info := region_info ps;
     currency := currency ps; balance := balance ps; current_day := current_day ps;
     fields := fs; livestock := livestock ps; inventory := inventory ps;
     active_quests := active_quests ps; market_prices := market_prices ps;
     nasa_data := nasa_data ps |}.

Definition set_inventory (inv : gmap string Z) (ps : PlayerState) : PlayerState :=
  {| playerName := playerName ps; region := region ps; region_info := region_info ps;
     currency := currency ps; balance := balance ps; current_day := current_day ps;
     fields := fields ps; livestock := livestock ps; inventory := inv;
     active_quests := active_quests ps; market_prices := market_prices ps;
     nasa_data := nasa_data ps |}.

Definition set_market_prices (mp : list (string * Z)) (ps : PlayerState) : PlayerState :=
  {| playerName := playerName ps; region := region ps; region_info := region_info ps;
     currency := currency ps; balance := balance ps; current_day := current_day ps;
     fields := fields ps; livestock := livestock ps; inventory := inventory ps;
     active_quests := active_quests ps; market_prices := mp;
     nasa_data := nasa_data ps |}.

Definition set_nasa_data (d : option NasaData) (ps : PlayerState) : PlayerState :=
  {| playerName := playerName ps; region := region ps; region_info := region_info ps;
     currency := currency ps; balance := balance ps; current_day := current_day ps;
     fields := fields ps; livestock := livestock ps; inventory := inventory ps;
     active_quests := active_quests ps; market_prices := market_prices ps;
     nasa_data := d |}.

(** ** Game data configuration *)

Definition REGIONS : gmap string Region :=
  <["Morogoro" := {| specialty := "Rice and Maize farming.";
                     crops := ["Rice"; "Maize"; "Sunflower"];
                     region_livestock := ["Cattle"; "Goats"] |}]>
  (<["Arusha" := {| specialty := "Horticulture and Coffee.";
                    crops := ["Coffee"; "Tomatoes"; "Flowers"];
                    region_livestock := ["Dairy Cattle"] |}]>
  (<["Dodoma" := {| specialty := "Grape and Sorghum cultivation.";
                    crops := ["Grapes"; "Sorghum"; "Millet"];
                    region_livestock := ["Goats"; "Sheep"] |}]> ∅)).

Definition CROP_DATA : gmap string CropInfo :=
  {[ "Maize" := {| growth_time := 5; yield := 10 |} ]}.

(** ** Python primitives the program uses *)

(** The exceptions the handlers can raise: [None['growth_time']] and the
    hashing of a list or an object are a [TypeError], [CROP_DATA[crop_name]]
    on a missing key a [KeyError], [params.get] on a value without [get]
    an [AttributeError]. *)
Inductive exn := TypeError | KeyError | AttributeError.

(** The random generator, as a sequence of raw draws. *)
Definition rng := nat → Z.

(** [random.randint(a, b)]: an integer N with [a <= N <= b]; the draw is
    folded into the range, so every value of the range can come out. *)
Definition randint (a b : Z) (g : rng) : Z * rng :=
  (a + g 0%nat `mod` (b - a + 1), λ n, g (S n)).

(** [max(0, x)] keeps its first argument unless [x > 0]. *)
Definition max0 (x : float) : float :=
  if PrimFloat.ltb 0%float x then x else 0%float.

(** [min(1.0, x)] keeps its first argument unless [x < 1.0]. *)
Definition min1 (x : float) : float :=
  if PrimFloat.ltb x 1%float then x else 1%float.

(** Truth value of [field['crop']]: [None] and the empty string are false. *)
Definition truthy (c : option string) : bool :=
  match c with
  | Some s => negb (String.eqb s EmptyString)
  | None => false
  end.

(** [field['id'] == field_id], where [field_id] is the request parameter:
    a JSON integer, or [None] when it is absent, null or any value that
    equals no integer, in which case it equals no id.  The values [1.0]
    and [true], which Python also finds equal to the id [1], are not
    represented: on them the branches do what they do on [1], and only the
    text of the message differs. *)
Definition id_is (field_id : option Z) (f : Field) : bool :=
  match field_id with
  | Some z => id f =? z
  | None => false
  end.

(** [str(field_id)] inside the f-strings of the messages, for the values
    of [field_id] that [id_is] represents. *)
Definition str_param (field_id : option Z) : string :=
  match field_id with
  | Some z => pretty z
  | None => "None"
  end.

(** [for field in fields: if p(field): ...; break]: the first field that
    passes the test, with its position. *)
Fixpoint first_field (p : Field → bool) (fs : list Field) : option (nat * Field) :=
  match fs with
  | [] => None
  | f :: rest =>
      if p f then Some (0%nat, f)
      else match first_field p rest with
           | Some (i, f') => Some (S i, f')
           | None => None
           end
  end.

(** ** initialize_game_state *)

Definition initial_field (n : Z) : Field :=
  {| id := n; crop := None; status := "Fallow"; water_level := 0.5%float;
     growth_stage := 0; health := 100 |}.

Definition initialize_game_state (player_name region_name : string) (g : rng)
  : PlayerState * rng :=
  let '(price, g') := randint 500 800 g in
  ({| playerName := player_name;
      region := region_name;
      region_info := REGIONS !! region_name;
      currency := "TZS";
      balance := 50000;
      current_day := 1;
      fields := [initial_field 1; initial_field 2];
      livestock := [{| ls_type := "Goats"; ls_count := 5; ls_health := 90;
                       ls_feed_level := 0.7%float |}];
      inventory := <["Maize Seed" := 10]> (<["Fertilizer" := 5]>
                   (<["Goat Feed" := 20]> (<["Harvested Maize" := 0]> ∅)));
      active_quests :=
        [{| quest_id := "main_quest_1";
            title := "Your First Farm";
            description := "Welcome to your farm in " +:+ region_name +:+
              "! Let's get started by planting some maize. Select Field 1 and choose 'Plant'.";
            learning_point :=
              "Choosing the right crop for your region is key to success. "
              +:+ region_name +:+ " is excellent for this.";
            is_complete := false |}];
      market_prices := [("Harvested Maize", price)];
      nasa_data := None |}, g').

(** ** advance_day *)

(** [for item in market_prices: market_prices[item] = randint(500, 800)] *)
Fixpoint reroll_prices (mp : list (string * Z)) (g : rng) : list (string * Z) * rng :=
  match mp with
  | [] => ([], g)
  | (item, _) :: rest =>
      let '(p, g1) := randint 500 800 g in
      let '(rest', g2) := reroll_prices rest g1 in
      ((item, p) :: rest', g2)
  end.

(** One pass of the body of [for field in player_state['fields']]: the
    field as the pass leaves it, and the exception if the pass raised. *)
Definition advance_field (f : Field) : Field * option exn :=
  if truthy (crop f) && String.eqb (status f) "Growing" then
    let f1 := if PrimFloat.ltb 0.4%float (water_level f)
              then set_growth_stage (growth_stage f + 1) f else f in
    let f2 := set_water_level (max0 (PrimFloat.sub (water_level f1) 0.2%float)) f1 in
    match crop f2 ≫= (CROP_DATA !!.) with
    | None => (f2, Some TypeError)
    | Some crop_info =>
        if growth_time crop_info <=? growth_stage f2
        then (set_status "Ready to Harvest" f2, None)
        else (f2, None)
    end
  else (f, None).

(** The loop over the fields stops at the first pass that raises; the
    fields after it are not visited. *)
Fixpoint advance_fields (fs : list Field) : list Field * option exn :=
  match fs with
  | [] => ([], None)
  | f :: rest =>
      match advance_field f with
      | (f', Some e) => (f' :: rest, Some e)
      | (f', None) =>
          let '(rest', r) := advance_fields rest in (f' :: rest', r)
      end
  end.

(** [advance_day]: the state object after the call, the generator, and
    [None] if the call returned (it returns that same object). *)
Definition advance_day (g : rng) (player_state : PlayerState)
  : PlayerState * rng * option exn :=
  let s1 := set_current_day (current_day player_state + 1) player_state in
  let '(mp, g') := reroll_prices (market_prices s1) g in
  let s2 := set_market_prices mp s1 in
  let '(fs, r) := advance_fields (fields s2) in
  (set_fields fs s2, g', r).

(** ** perform_action *)

(** What the branches of [perform_action] leave in [success] and [message],
    or the exception that escaped. *)
Inductive result :=
| Done (success : bool) (message : string)
| Raise (e : exn).

Definition not_recognized : result := Done false "Action not recognized.".

(** [action_type == name]; an absent or non-string action equals no name. *)
Definition is_action (action_type : option string) (name : string) : bool :=
  match action_type with
  | Some a => String.eqb a name
  | None => false
  end.

(** The [plant] branch. *)
Definition plant (player_state : PlayerState) (field_id : option Z)
  : PlayerState * result :=
  let crop_name := "Maize" in
  let seed_name := crop_name +:+ " Seed" in
  if 0 <? default 0 (inventory player_state !! seed_name) then
    match first_field (λ f, id_is field_id f && String.eqb (status f) "Fallow")
                      (fields player_state) with
    | Some (i, f) =>
        let f' := set_growth_stage 0 (set_status "Growing" (set_crop (Some crop_name) f)) in
        let s1 := set_fields (<[i := f']> (fields player_state)) player_state in
        let s2 := set_inventory
                    (<[seed_name := default 0 (inventory s1 !! seed_name) - 1]> (inventory s1))
                    s1 in
        (s2, Done true ("You planted " +:+ crop_name +:+ " in Field "
                        +:+ str_param field_id +:+ "."))
    | None => (player_state, not_recognized)
    end
  else (player_state, not_recognized).

(** The [water] branch. *)
Definition water (player_state : PlayerState) (field_id : option Z)
  : PlayerState * result :=
  match first_field (id_is field_id) (fields player_state) with
  | Some (i, f) =>
      let f' := set_water_level (min1 (PrimFloat.add (water_level f) 0.4%float)) f in
      let s1 := set_fields (<[i := f']> (fields player_state)) player_state in
      let s2 := set_balance (balance s1 - 100) s1 in
      (s2, Done true ("You watered Field " +:+ str_param field_id
                      +:+ ". It cost 100 TZS."))
  | None => (player_state, not_recognized)
  end.

(** The [harvest] branch; [CROP_DATA[crop_name]] raises before anything
    is written. *)
Definition harvest (player_state : PlayerState) (field_id : option Z)
  : PlayerState * result :=
  match first_field (λ f, id_is field_id f && String.eqb (status f) "Ready to Harvest")
                    (fields player_state) with
  | Some (i, f) =>
      match crop f with
      | Some crop_name =>
          match CROP_DATA !! crop_name with
          | Some crop_info =>
              let harvested_item := "Harvested " +:+ crop_name in
              let crop_yield := yield crop_info in
              let s1 := set_inventory
                          (<[harvested_item :=
                               default 0 (inventory player_state !! harvested_item) + crop_yield]>
                             (inventory player_state))
                          player_state in
              let f' := set_growth_stage 0 (set_status "Fallow" (set_crop None f)) in
              let s2 := set_fields (<[i := f']> (fields s1)) s1 in
              (s2, Done true ("You harvested " +:+ pretty crop_yield +:+ " units of "
                              +:+ crop_name +:+ "!"))
          | None => (player_state, Raise KeyError)
          end
      | None => (player_state, Raise KeyError)
      end
  | None => (player_state, not_recognized)
  end.

(** The [if]/[elif] chain on [action_type]: the state object as the chosen
    branch leaves it, the generator, and the result. *)
Definition action_branches (g : rng) (player_state : PlayerState)
    (action_type : option string) (field_id : option Z)
  : PlayerState * rng * result :=
  if is_action action_type "next_day" then
    match advance_day g player_state with
    | (s, g', None) => (s, g', Done true "A new day has dawned.")
    | (s, g', Some e) => (s, g', Raise e)
    end
  else if is_action action_type "plant" then
    let '(s, r) := plant player_state field_id in (s, g, r)
  else if is_action action_type "water" then
    let '(s, r) := water player_state field_id in (s, g, r)
  else if is_action action_type "harvest" then
    let '(s, r) := harvest player_state field_id in (s, g, r)
  else (player_state, g, not_recognized).

(** The [playerName] member of the body: absent, null or another false
    value; a string; a number or [true], which equals no key of a store of
    strings; or a list or an object that is not empty, which the test
    [player_name not in game_saves] cannot hash. *)
Inductive PlayerName :=
| NameMissing
| NameString (name : string)
| NameScalar
| NameContainer.

(** The [params] member of the body: absent, and then the handler takes
    [{}]; an object, with its [field_id] member; or any other JSON value
    (null, a number, a string, a list), which has no [get]. *)
Inductive Params :=
| NoParams
| ParamsObject (field_id : option Z)
| ParamsOther.

(** The decoded JSON object that is the body of a request. *)
Record Request := {
  req_name : PlayerName;
  req_action : option string;
  req_params : Params
}.

(** The player a request names, if it names one by a string. *)
Definition req_playerName (req : Request) : option string :=
  match req_name req with
  | NameString name => Some name
  | _ => None
  end.

(** [params.get('field_id')]: the member, or the exception. *)
Definition params_get (params : Params) : exn + option Z :=
  match params with
  | NoParams => inr None
  | ParamsObject field_id => inr field_id
  | ParamsOther => inl AttributeError
  end.

(** The [field_id] a request carries, if its [params] can be asked. *)
Definition req_field_id (req : Request) : option Z :=
  match params_get (req_params req) with
  | inr field_id => field_id
  | inl _ => None
  end.

(** The [if]/[elif] chain again, from [params] as the body has it: the
    plant, water and harvest branches start with [params.get('field_id')],
    the next_day branch and the fall-through never look at [params]. *)
Definition action_with_params (g : rng) (player_state : PlayerState)
    (action_type : option string) (params : Params)
  : PlayerState * rng * result :=
  if is_action action_type "next_day" then
    action_branches g player_state action_type None
  else if is_action action_type "plant" || is_action action_type "water"
          || is_action action_type "harvest" then
    match params_get params with
    | inl e => (player_state, g, Raise e)
    | inr field_id => action_branches g player_state action_type field_id
    end
  else action_branches g player_state action_type None.

Record Response := {
  code : Z;
  resp_status : string;
  resp_message : string;
  new_state : option PlayerState
}.

Inductive outcome :=
| Returned (r : Response)
| Raised (e : exn).

(** [not player_name or player_name not in game_saves] is false. *)
Definition saved_player (game_saves : gmap string PlayerState) (req : Request)
  : option (string * PlayerState) :=
  match req_playerName req with
  | Some name =>
      if String.eqb name EmptyString then None
      else match game_saves !! name with
           | Some s => Some (name, s)
           | None => None
           end
  | None => None
  end.

(** The handler once [player_name] has passed the test of its first
    line.  [player_state] is the very dict held by [game_saves], so
    whatever a branch did to it is in the store whether or not the final
    [game_saves[player_name] = player_state] is reached. *)
Definition dispatch_saved (g : rng) (game_saves : gmap string PlayerState) (req : Request)
  : gmap string PlayerState * rng * outcome :=
  match saved_player game_saves req with
  | None =>
      (game_saves, g,
       Returned {| code := 404; resp_status := "error";
                   resp_message := "Player not found."; new_state := None |})
  | Some (player_name, player_state) =>
      let '(s, g', r) :=
        action_with_params g player_state (req_action req) (req_params req) in
      let mutated := <[player_name := s]> game_saves in
      match r with
      | Raise e => (mutated, g', Raised e)
      | Done true message =>
          (<[player_name := s]> mutated, g',
           Returned {| code := 200; resp_status := "success";
                       resp_message := message; new_state := Some s |})
      | Done false message =>
          (mutated, g',
           Returned {| code := 400; resp_status := "error";
                       resp_message := message; new_state := None |})
      end
  end.

(** The route handler: [not player_name or player_name not in game_saves]
    raises on a name that cannot be hashed, before anything else happens. *)
Definition perform_action (g : rng) (game_saves : gmap string PlayerState) (req : Request)
  : gmap string PlayerState * rng * outcome :=
  match req_name req with
  | NameContainer => (game_saves, g, Raised TypeError)
  | _ => dispatch_saved g game_saves req
  end.

(** ** Reachable player states

    A saved state is created by [initialize_game_state] (the login route
    calls it only for a region of the catalog), has its [nasa_data]
    overwritten at every login, and is otherwise only touched by the
    branches of [perform_action]. *)
Inductive reachable : PlayerState → Prop :=
| reach_init player_name region_name g :
    is_Some (REGIONS !! region_name) →
    reachable (initialize_game_state player_name region_name g).1
| reach_login s d :
    reachable s → reachable (set_nasa_data (Some d) s)
| reach_action s g action_type field_id :
    reachable s → reachable (action_branches g s action_type field_id).1.1.

(** ** Predicates of the statements *)

(** The test [field['crop'] and field['status'] == 'Growing']. *)
Definition is_growing (f : Field) : bool :=
  truthy (crop f) && String.eqb (status f) "Growing".

(** The catalog entry of a field's crop, if there is one. *)
Definition catalog (c : option string) : option CropInfo := c ≫= (CROP_DATA !!.).

(** Every field the growth loop works on carries a crop of the catalog. *)
Definition known_crops (fs : list Field) : Prop :=
  ∀ f, f ∈ fs → is_growing f = true → is_Some (catalog (crop f)).

(** Every field that can be harvested carries a crop of the catalog. *)
Definition ready_known (fs : list Field) : Prop :=
  ∀ f, f ∈ fs → status f = "Ready to Harvest" → is_Some (catalog (crop f)).

(** The growth step of one day: the stage after the water test. *)
Definition grown_stage (f : Field) : Z :=
  if PrimFloat.ltb 0.4%float (water_level f) then growth_stage f + 1 else growth_stage f.

(** The water levels a field of a saved game can show. *)
Definition water_levels : list float :=
  [0.5; 0.29999999999999999; 0.90000000000000002; 0.099999999999999978;
   0.69999999999999996; 1; 0; 0.49999999999999994; 0.80000000000000004;
   0.40000000000000002; 0.29999999999999993; 0.89999999999999991;
   0.60000000000000009; 0.20000000000000001; 0.099999999999999922;
   0.40000000000000008; 0.20000000000000007; 5.5511151231257827e-17]%float.

(** What holds of every field of a saved game. *)
Definition field_inv (f : Field) : Prop :=
  In (water_level f) water_levels ∧
  ((status f = "Fallow" ∧ crop f = None ∧ growth_stage f = 0) ∨
   ((status f = "Growing" ∨ status f = "Ready to Harvest") ∧ crop f = Some "Maize")).

Definition state_inv (s : PlayerState) : Prop := Forall field_inv (fields s).

(** Whether a branch set [success]. *)
Definition succeeded (r : result) : Prop := ∃ message, r = Done true message.

(** ** Example games *)

(** A run of actions of one player, with a fixed generator. *)
Definition play (s : PlayerState) (actions : list (string * option Z)) : PlayerState :=
  foldl (λ s a, (action_branches (λ _, 7) s (Some a.1) a.2).1.1) s actions.

(** A fresh farm; the same farm with field 1 planted; after four watered
    days; and after the fifth day. *)
Definition fresh_farm : PlayerState :=
  (initialize_game_state "Amina" "Morogoro" (λ _, 7)).1.

Definition planted_farm : PlayerState := play fresh_farm [("plant", Some 1)].

Definition ripening_farm : PlayerState :=
  play planted_farm
    [("next_day", None); ("water", Some 1); ("next_day", None); ("water", Some 1);
     ("next_day", None); ("water", Some 1); ("next_day", None); ("water", Some 1)].

Definition ripe_farm : PlayerState := play ripening_farm [("next_day", None)].

(** A farm watered until the money is gone. *)
Definition broke_farm : PlayerState := play fresh_farm (replicate 500 ("water", Some 1)).

(** A farm that has run out of seed, both of its fields being Fallow. *)
Definition seedless_farm : PlayerState :=
  set_inventory (<["Maize Seed" := 0]> (inventory fresh_farm)) fresh_farm.

(** Field 1 of the farm after the fifth day. *)
Definition ripe_field : Field :=
  {| id := 1; crop := Some "Maize"; status := "Ready to Harvest";
     water_level := 0.80000000000000004%float; growth_stage := 5; health := 100 |}.

(** Picks the member of [water_levels] that a computed level is. *)
Ltac pick_level := repeat (first [left; reflexivity | right]).

(** A store with one saved game, and a request to plant its field 1. *)
Definition one_save : gmap string PlayerState := {[ "Amina" := ripe_farm ]}.

Definition plant_request : Request :=
  {| req_name := NameString "Amina"; req_action := Some "plant";
     req_params := ParamsObject (Some 1) |}.

(** The same request with [params] null, and one whose name is a list. *)
Definition null_params_request : Request :=
  {| req_name := NameString "Amina"; req_action := Some "plant";
     req_params := ParamsOther |}.

Definition list_name_request : Request :=
  {| req_name := NameContainer; req_action := Some "next_day"; req_params := NoParams |}.

(** ** create_or_login_player *)

(** The decoded JSON body of a login request: [playerName] and [region],
    each possibly absent. *)
Record PlayerRequest := {
  login_playerName : option string;
  login_region : option string
}.

Record PlayerResponse := {
  login_code : Z;
  login_status : string;
  login_message : string;
  login_state : option PlayerState
}.

(** The login route.  [get_simulated_nasa_data] draws floats from Python's
    [random.uniform] and rounds them with [round]; it is taken as a
    parameter, so that what is proved of the route holds whatever reading
    it produces.  As in [perform_action], the state that receives the
    reading is the dict held by [game_saves]. *)
Definition create_or_login_player
    (get_simulated_nasa_data : string → rng → NasaData * rng)
    (g : rng) (game_saves : gmap string PlayerState) (data : PlayerRequest)
  : gmap string PlayerState * rng * PlayerResponse :=
  match login_playerName data with
  | Some player_name =>
      if String.eqb player_name EmptyString then
        (game_saves, g,
         {| login_code := 400; login_status := "error";
            login_message := "Player name is required."; login_state := None |})
      else
        match game_saves !! player_name with
        | Some player_state =>
            let '(reading, g') := get_simulated_nasa_data (region player_state) g in
            let s := set_nasa_data (Some reading) player_state in
            (<[player_name := s]> game_saves, g',
             {| login_code := 200; login_status := "success";
                login_message := "Welcome back, " +:+ player_name +:+ "!";
                login_state := Some s |})
        | None =>
            let region := default "Morogoro" (login_region data) in
            match REGIONS !! region with
            | None =>
                (game_saves, g,
                 {| login_code := 400; login_status := "error";
                    login_message := "Invalid region selected."; login_state := None |})
            | Some _ =>
                let '(new_state, g1) := initialize_game_state player_name region g in
                let '(reading, g2) := get_simulated_nasa_data region g1 in
                let s := set_nasa_data (Some reading) new_state in
                (<[player_name := s]> game_saves, g2,
                 {| login_code := 200; login_status := "success";
                    login_message := "New farm created for " +:+ player_name +:+ " in "
                                     +:+ region +:+ "!";
                    login_state := Some s |})
            end
        end
  | None =>
      (game_saves, g,
       {| login_code := 400; login_status := "error";
          login_message := "Player name is required."; login_state := None |})
  end.

(** The stores the two routes can build, starting from the empty dict. *)
Inductive store_reachable (sampler : string → rng → NasaData * rng)
  : gmap string PlayerState → Prop :=
| store_empty : store_reachable sampler ∅
| store_login g saves data :
    store_reachable sampler saves →
    store_reachable sampler (create_or_login_player sampler g saves data).1.1
| store_action g saves req :
    store_reachable sampler saves →
    store_reachable sampler (perform_action g saves req).1.1.

(** ** Further predicates and examples *)

(** How a single action can change one field: not at all, by a pass of the
    day loop, by planting, by watering, or by harvesting. *)
Definition field_change (f f' : Field) : Prop :=
  f' = f ∨
  f' = (advance_field f).1 ∨
  (status f = "Fallow" ∧
   f' = set_growth_stage 0 (set_status "Growing" (set_crop (Some "Maize") f))) ∨
  f' = set_water_level (min1 (PrimFloat.add (water_level f) 0.4%float)) f ∨
  (status f = "Ready to Harvest" ∧
   f' = set_growth_stage 0 (set_status "Fallow" (set_crop None f))).

(** 1 for a field that holds a crop, 0 for a Fallow one; and their sum. *)
Definition occupied (f : Field) : Z :=
  if String.eqb (status f) "Fallow" then 0 else 1.

Definition planted (fs : list Field) : Z := foldr (λ f n, occupied f + n) 0 fs.

(** [n] calls of [advance_day] in a row. *)
Fixpoint next_days (g : rng) (n : nat) (s : PlayerState) : PlayerState * rng :=
  match n with
  | O => (s, g)
  | S n' => let '(s1, g1, _) := advance_day g s in next_days g1 n' s1
  end.

(** A sampler that always reports the same reading. *)
Definition fixed_reading (_ : string) (g : rng) : NasaData * rng :=
  ({| soil_moisture := 0.5%float; precipitation_forecast := "clear";
      vegetation_index := 0.5%float |}, g).

(** A state no route produces: field 1 grows a crop the catalog lacks. *)
Definition rice_farm : PlayerState :=
  set_fields
    [ {| id := 1; crop := Some "Rice"; status := "Growing"; water_level := 0.5%float;
         growth_stage := 0; health := 100 |};
      {| id := 2; crop := Some "Maize"; status := "Growing"; water_level := 0.5%float;
         growth_stage := 0; health := 100 |};
      {| id := 3; crop := Some "Rice"; status := "Ready to Harvest";
         water_level := 0.5%float; growth_stage := 5; health := 100 |} ]
    fresh_farm.

(** The planted farm after one day without water. *)
Definition dry_farm : PlayerState :=
  play planted_farm [("next_day", None); ("next_day", None)].

(** ** Auxiliary facts *)

Lemma first_field_Some p fs i f :
  first_field p fs = Some (i, f) ↔
  fs !! i = Some f ∧ p f = true ∧ ∀ j h, (j < i)%nat → fs !! j = Some h → p h = false.
Proof.
  revert i. induction fs as [|a fs IH]; intros i; simpl.
  - split; [discriminate | intros [H _]; discriminate].
  - destruct (p a) eqn:Hpa.
    + split.
      * intros [= <- <-]. repeat split; auto. intros j h Hj; lia.
      * intros (Hi & Hf & Hmin). destruct i as [|i].
        -- simpl in Hi. congruence.
        -- specialize (Hmin 0%nat a ltac:(lia) eq_refl). congruence.
    + split.
      * destruct (first_field p fs) as [[k h]|] eqn:Hff; [| discriminate].
        intros [= <- <-]. destruct (IH k) as [IH1 _].
        destruct (IH1 eq_refl) as (Hk & Hph & Hmin).
        repeat split; auto. intros [|j] h' Hj Hl; simpl in Hl.
        -- congruence.
        -- apply (Hmin j); [lia | done].
      * intros (Hi & Hf & Hmin). destruct i as [|i]; simpl in Hi; [congruence |].
        destruct (IH i) as [_ IH2]. rewrite IH2; [done |].
        repeat split; auto. intros j h' Hj Hl.
        apply (Hmin (S j)); [lia | done].
Qed.

Lemma first_field_None p fs :
  first_field p fs = None ↔ ∀ f, f ∈ fs → p f = false.
Proof.
  induction fs as [|a fs IH]; simpl.
  - split; [intros _ f Hf; inversion Hf | done].
  - destruct (p a) eqn:Hpa.
    + split; [discriminate |]. intros H. specialize (H a ltac:(left)). congruence.
    + split.
      * destruct (first_field p fs) as [[k h]|] eqn:Hff; [discriminate |].
        intros _ f Hf. apply elem_of_cons in Hf as [-> | Hf]; [done |].
        by apply IH.
      * intros H. destruct IH as [_ IH2]. rewrite IH2; [done |].
        intros f Hf. apply H. by right.
Qed.

(** A match exists exactly when the loop stops at some field. *)
Lemma first_field_is_Some p fs :
  is_Some (first_field p fs) ↔ ∃ f, f ∈ fs ∧ p f = true.
Proof.
  split.
  - intros [[i f] H]. apply first_field_Some in H as (Hi & Hp & _).
    exists f. split; [by eapply list_elem_of_lookup_2 | done].
  - intros (f & Hf & Hp). destruct (first_field p fs) eqn:E; [eauto |].
    rewrite first_field_None in E. specialize (E f Hf). congruence.
Qed.

Lemma is_growing_spec f :
  is_growing f = true ↔ truthy (crop f) = true ∧ status f = "Growing".
Proof.
  unfold is_growing. rewrite andb_true_iff, String.eqb_eq. done.
Qed.

(** One pass of the loop body, with the growth step named. *)
Lemma advance_field_eq f :
  advance_field f =
  if is_growing f then
    let f2 := set_water_level (max0 (PrimFloat.sub (water_level f) 0.2%float))
                (set_growth_stage (grown_stage f) f) in
    match catalog (crop f) with
    | None => (f2, Some TypeError)
    | Some crop_info =>
        if growth_time crop_info <=? grown_stage f
        then (set_status "Ready to Harvest" f2, None)
        else (f2, None)
    end
  else (f, None).
Proof.
  unfold advance_field, is_growing, grown_stage, catalog.
  destruct (truthy (crop f) && String.eqb (status f) "Growing"); [| done].
  destruct f as [i c st w n h]; simpl.
  destruct (PrimFloat.ltb 0.4%float w); done.
Qed.

(** Without a raising pass the loop is a map over the fields. *)
Lemma advance_fields_known fs :
  known_crops fs →
  advance_fields fs = ((λ f, (advance_field f).1) <$> fs, None).
Proof.
  induction fs as [|a fs IH]; intros Hk; [done |].
  simpl. assert ((advance_field a).2 = None) as Ha.
  { rewrite advance_field_eq. destruct (is_growing a) eqn:Hg; [| done].
    destruct (Hk a ltac:(left) Hg) as [info Hinfo]. simpl. rewrite Hinfo.
    by destruct (growth_time info <=? _). }
  destruct (advance_field a) as [a' [e|]]; simpl in Ha; [discriminate |].
  rewrite IH; [done |]. intros f Hf. apply Hk. by right.
Qed.

(** The loop raises exactly when some field it works on has an unknown crop. *)
Lemma advance_fields_raises fs :
  (advance_fields fs).2 ≠ None ↔
  ∃ f, f ∈ fs ∧ is_growing f = true ∧ catalog (crop f) = None.
Proof.
  split.
  - intros Hr. destruct (decide (Exists (λ f, is_growing f = true ∧ catalog (crop f) = None) fs))
      as [He | Hne].
    + apply Exists_exists in He as (f & Hf & Hg & Hc). eauto.
    + exfalso. apply Hr. rewrite advance_fields_known; [done |].
      intros f Hf Hg. destruct (catalog (crop f)) eqn:Hc; [eauto |].
      exfalso. apply Hne, Exists_exists. eauto.
  - intros (f & Hf & Hg & Hc). induction fs as [|a fs IH]; [inversion Hf |].
    simpl. destruct (advance_field a) as [a' [e|]] eqn:Ha; [done |].
    apply elem_of_cons in Hf as [<- | Hf].
    + exfalso. rewrite advance_field_eq, Hg in Ha. simpl in Ha. rewrite Hc in Ha.
      discriminate.
    + specialize (IH Hf). destruct (advance_fields fs) as [rest' r]. done.
Qed.

(** The set of water levels is closed under a watering and under a day's
    decay, and lies between 0 and 1. *)
Lemma water_levels_watered w :
  In w water_levels → In (min1 (PrimFloat.add w 0.4%float)) water_levels.
Proof.
  unfold water_levels. simpl. intros H.
  repeat (destruct H as [<- | H]; [vm_compute; pick_level |]). contradiction.
Qed.

Lemma water_levels_decayed w :
  In w water_levels → In (max0 (PrimFloat.sub w 0.2%float)) water_levels.
Proof.
  unfold water_levels. simpl. intros H.
  repeat (destruct H as [<- | H]; [vm_compute; pick_level |]). contradiction.
Qed.

Lemma water_levels_bounded w :
  In w water_levels →
  PrimFloat.leb 0%float w = true ∧ PrimFloat.leb w 1%float = true.
Proof.
  unfold water_levels. simpl. intros H.
  repeat (destruct H as [<- | H]; [split; reflexivity |]). contradiction.
Qed.

(** The cap and the floor hold for every float, by the IEEE comparison. *)
Lemma min1_le_1 x : PrimFloat.leb (min1 x) 1%float = true.
Proof.
  unfold min1. destruct (PrimFloat.ltb x 1%float) eqn:Hlt; [| reflexivity].
  rewrite ltb_spec in Hlt. rewrite leb_spec.
  unfold SFltb in Hlt. unfold SFleb.
  by destruct (SFcompare (Prim2SF x) (Prim2SF 1%float)) as [[| |]|].
Qed.

Lemma max0_ge_0 x : PrimFloat.leb 0%float (max0 x) = true.
Proof.
  unfold max0. destruct (PrimFloat.ltb 0%float x) eqn:Hlt; [| reflexivity].
  rewrite ltb_spec in Hlt. rewrite leb_spec.
  unfold SFltb in Hlt. unfold SFleb.
  by destruct (SFcompare (Prim2SF 0%float) (Prim2SF x)) as [[| |]|].
Qed.

Lemma catalog_Maize : catalog (Some "Maize") = Some {| growth_time := 5; yield := 10 |}.
Proof. reflexivity. Qed.

Lemma field_inv_catalog f :
  field_inv f → status f ≠ "Fallow" → crop f = Some "Maize".
Proof. intros [_ [(Hs & _) | (_ & Hc)]] Hn; [contradiction | done]. Qed.

Lemma advance_field_inv f :
  field_inv f → field_inv (advance_field f).1 ∧ (advance_field f).2 = None.
Proof.
  intros Hinv. rewrite advance_field_eq. destruct (is_growing f) eqn:Hg; [| done].
  apply is_growing_spec in Hg as [_ Hst].
  assert (crop f = Some "Maize") as Hc.
  { apply field_inv_catalog; [done |]. rewrite Hst. discriminate. }
  simpl. rewrite Hc, catalog_Maize. destruct Hinv as [Hw _].
  apply water_levels_decayed in Hw. cbn [growth_time].
  destruct (5 <=? grown_stage f); (split; [split; simpl | done]); auto.
Qed.

Lemma field_inv_known fs : Forall field_inv fs → known_crops fs.
Proof.
  intros Hinv f Hf Hg. apply is_growing_spec in Hg as [_ Hst].
  rewrite Forall_forall in Hinv.
  rewrite (field_inv_catalog f); [by rewrite catalog_Maize | by apply Hinv |].
  rewrite Hst. discriminate.
Qed.

Lemma field_inv_ready fs : Forall field_inv fs → ready_known fs.
Proof.
  intros Hinv f Hf Hst. rewrite Forall_forall in Hinv.
  rewrite (field_inv_catalog f); [by rewrite catalog_Maize | by apply Hinv |].
  rewrite Hst. discriminate.
Qed.

Lemma advance_fields_inv fs :
  Forall field_inv fs →
  advance_fields fs = ((λ f, (advance_field f).1) <$> fs, None) ∧
  Forall field_inv ((λ f, (advance_field f).1) <$> fs).
Proof.
  intros Hinv. split.
  - by apply advance_fields_known, field_inv_known.
  - apply Forall_fmap. eapply Forall_impl; [done |]. intros f Hf. simpl.
    by apply advance_field_inv.
Qed.

Lemma advance_day_inv g s :
  state_inv s → state_inv (advance_day g s).1.1 ∧ (advance_day g s).2 = None.
Proof.
  intros Hinv. unfold advance_day.
  destruct (reroll_prices _ g) as [mp g']. simpl.
  destruct (advance_fields_inv (fields s) Hinv) as [-> Hf]. done.
Qed.

Lemma plant_inv s field_id : state_inv s → state_inv (plant s field_id).1.
Proof.
  intros Hinv. unfold plant.
  destruct (0 <? _); [| done].
  destruct (first_field _ _) as [[i f]|] eqn:Hff; [| done].
  apply first_field_Some in Hff as (Hi & _ & _). simpl.
  unfold state_inv in *. simpl. apply Forall_insert; [done |].
  rewrite Forall_forall in Hinv.
  destruct (Hinv f) as [Hw _]; [by eapply list_elem_of_lookup_2 |].
  split; [done |]. right. split; [by left | done].
Qed.

Lemma water_inv s field_id : state_inv s → state_inv (water s field_id).1.
Proof.
  intros Hinv. unfold water.
  destruct (first_field _ _) as [[i f]|] eqn:Hff; [| done].
  apply first_field_Some in Hff as (Hi & _ & _). simpl.
  unfold state_inv in *. simpl. apply Forall_insert; [done |].
  rewrite Forall_forall in Hinv.
  destruct (Hinv f) as [Hw Hst]; [by eapply list_elem_of_lookup_2 |].
  split; [by apply water_levels_watered | done].
Qed.

Lemma harvest_inv s field_id : state_inv s → state_inv (harvest s field_id).1.
Proof.
  intros Hinv. unfold harvest.
  destruct (first_field _ _) as [[i f]|] eqn:Hff; [| done].
  apply first_field_Some in Hff as (Hi & _ & _).
  destruct (crop f) as [c|]; [| done]. destruct (CROP_DATA !! c); [| done]. simpl.
  unfold state_inv in *. simpl. apply Forall_insert; [done |].
  rewrite Forall_forall in Hinv.
  destruct (Hinv f) as [Hw _]; [by eapply list_elem_of_lookup_2 |].
  split; [done |]. by left.
Qed.

Lemma action_branches_inv g s action_type field_id :
  state_inv s → state_inv (action_branches g s action_type field_id).1.1.
Proof.
  intros Hinv. unfold action_branches.
  destruct (is_action action_type "next_day").
  { pose proof (advance_day_inv g s Hinv) as [H1 H2].
    destruct (advance_day g s) as [[s' g'] [e|]]; done. }
  destruct (is_action action_type "plant").
  { pose proof (plant_inv s field_id Hinv). by destruct (plant s field_id). }
  destruct (is_action action_type "water").
  { pose proof (water_inv s field_id Hinv). by destruct (water s field_id). }
  destruct (is_action action_type "harvest").
  { pose proof (harvest_inv s field_id Hinv). by destruct (harvest s field_id). }
  done.
Qed.

(** Every saved game satisfies the invariant. *)
Lemma reachable_inv s : reachable s → state_inv s.
Proof.
  induction 1 as [player_name region_name g _ | s d _ IH | s g a fid _ IH].
  - unfold state_inv, initialize_game_state. simpl.
    repeat constructor; simpl; auto.
  - done.
  - by apply action_branches_inv.
Qed.

(** ** The day-advancement engine *)

(** When no pass raises, [advance_day] returns and its fields are the
    per-field passes of the old ones. *)
Lemma advance_day_known g s :
  known_crops (fields s) →
  ∃ mp g',
    advance_day g s =
      (set_fields ((λ f, (advance_field f).1) <$> fields s)
         (set_market_prices mp (set_current_day (current_day s + 1) s)), g', None).
Proof.
  intros Hk. unfold advance_day.
  destruct (reroll_prices _ g) as [mp g']. simpl.
  rewrite (advance_fields_known _ Hk). eauto.
Qed.

Lemma planted_farm_known : known_crops (fields planted_farm).
Proof.
  intros f Hf Hg. vm_compute in Hf.
  repeat (apply elem_of_cons in Hf as [-> | Hf]); [by eexists | discriminate |].
  inversion Hf.
Qed.

(** C1: for every player state whose growing crops are known to the Crop
    Catalog (every saved game is such a state, [reachable_inv]), one call
    to [advance_day] returns, and each field with a crop set and status
    Growing has its growth_stage incremented by exactly 1 if its
    water_level is strictly greater than 0.4, unchanged otherwise, and in
    both cases its water_level set to max(0, water_level - 0.2); every
    other field is left as it was. *)
Theorem advance_day_growing_fields (g : rng) (s : PlayerState) :
  known_crops (fields s) →
  ∃ s' g',
    advance_day g s = (s', g', None) ∧
    length (fields s') = length (fields s) ∧
    ∀ i f, fields s !! i = Some f →
      ∃ f', fields s' !! i = Some f' ∧
        (truthy (crop f) = true → status f = "Growing" →
           (PrimFloat.ltb 0.4%float (water_level f) = true →
              growth_stage f' = growth_stage f + 1) ∧
           (PrimFloat.ltb 0.4%float (water_level f) = false →
              growth_stage f' = growth_stage f) ∧
           water_level f' = max0 (PrimFloat.sub (water_level f) 0.2%float)) ∧
        (truthy (crop f) = false ∨ status f ≠ "Growing" → f' = f).
Proof.
  intros Hk. destruct (advance_day_known g s Hk) as (mp & g' & Heq).
  eexists _, g'. split; [exact Heq |]. simpl. split; [by rewrite length_fmap |].
  intros i f Hi. exists (advance_field f).1.
  split; [by rewrite list_lookup_fmap, Hi |].
  rewrite advance_field_eq. split.
  - intros Ht Hst. rewrite (proj2 (is_growing_spec f) (conj Ht Hst)).
    assert (is_Some (catalog (crop f))) as [info Hinfo].
    { apply Hk; [by eapply list_elem_of_lookup_2 | by apply is_growing_spec]. }
    simpl. rewrite Hinfo. unfold grown_stage.
    destruct (growth_time info <=? _); simpl;
      destruct (PrimFloat.ltb 0.4%float (water_level f)); done.
  - intros Hn. destruct (is_growing f) eqn:Hg; [| done].
    apply is_growing_spec in Hg as [Ht Hst]. destruct Hn; congruence.
Qed.

Lemma advance_day_growing_fields_witness :
  known_crops (fields planted_farm) ∧
  ∃ s' g',
    advance_day (λ _, 7) planted_farm = (s', g', None) ∧
    length (fields s') = length (fields planted_farm) ∧
    ∀ i f, fields planted_farm !! i = Some f →
      ∃ f', fields s' !! i = Some f' ∧
        (truthy (crop f) = true → status f = "Growing" →
           (PrimFloat.ltb 0.4%float (water_level f) = true →
              growth_stage f' = growth_stage f + 1) ∧
           (PrimFloat.ltb 0.4%float (water_level f) = false →
              growth_stage f' = growth_stage f) ∧
           water_level f' = max0 (PrimFloat.sub (water_level f) 0.2%float)) ∧
        (truthy (crop f) = false ∨ status f ≠ "Growing" → f' = f).
Proof.
  split; [exact planted_farm_known |].
  exact (advance_day_growing_fields (λ _, 7) planted_farm planted_farm_known).
Defined.

(** C2: for every such player state and every Growing field with a crop of
    the Crop Catalog, if the growth_stage after the growth step of
    [advance_day] is at least the crop's growth_time, then [advance_day]
    returns with that field's status set to "Ready to Harvest", its crop
    unchanged and its growth_stage the one the growth step produced. *)
Theorem advance_day_ready_to_harvest (g : rng) (s : PlayerState) (i : nat) (f : Field)
    (crop_info : CropInfo) :
  known_crops (fields s) →
  fields s !! i = Some f →
  truthy (crop f) = true →
  status f = "Growing" →
  catalog (crop f) = Some crop_info →
  growth_time crop_info ≤ grown_stage f →
  ∃ s' g' f',
    advance_day g s = (s', g', None) ∧
    fields s' !! i = Some f' ∧
    status f' = "Ready to Harvest" ∧
    crop f' = crop f ∧
    growth_stage f' = grown_stage f.
Proof.
  intros Hk Hi Ht Hst Hinfo Hge.
  destruct (advance_day_known g s Hk) as (mp & g' & Heq).
  eexists _, g', (advance_field f).1. split; [exact Heq |]. simpl.
  split; [by rewrite list_lookup_fmap, Hi |].
  rewrite advance_field_eq, (proj2 (is_growing_spec f) (conj Ht Hst)).
  simpl. rewrite Hinfo.
  destruct (growth_time crop_info <=? grown_stage f) eqn:Hle; [done |].
  apply Z.leb_gt in Hle. lia.
Qed.

Lemma play_reachable s actions : reachable s → reachable (play s actions).
Proof.
  revert s. induction actions as [|a actions IH]; intros s Hs; [done |].
  apply IH. by apply reach_action.
Qed.

Lemma fresh_farm_reachable : reachable fresh_farm.
Proof. apply reach_init. by eexists. Qed.

Lemma advance_day_ready_to_harvest_witness :
  ∃ s' g' f',
    advance_day (λ _, 7) ripening_farm = (s', g', None) ∧
    fields s' !! 0%nat = Some f' ∧
    status f' = "Ready to Harvest" ∧
    crop f' = Some "Maize" ∧
    growth_stage f' = 5.
Proof.
  refine (advance_day_ready_to_harvest (λ _, 7) ripening_farm 0
            {| id := 1; crop := Some "Maize"; status := "Growing";
               water_level := 1%float; growth_stage := 4; health := 100 |}
            {| growth_time := 5; yield := 10 |} _ _ _ _ _ _).
  - apply field_inv_known, reachable_inv.
    by repeat apply play_reachable; apply fresh_farm_reachable.
  - reflexivity.
  - reflexivity.
  - reflexivity.
  - reflexivity.
  - vm_compute. discriminate.
Defined.

(** ** The action dispatcher *)

Lemma id_is_spec field_id f : id_is field_id f = true ↔ field_id = Some (id f).
Proof.
  destruct field_id as [z|]; simpl; [| done].
  rewrite Z.eqb_eq. split; [by intros -> | by intros [= ->]].
Qed.

Lemma id_status_spec field_id st f :
  id_is field_id f && String.eqb (status f) st = true ↔
  field_id = Some (id f) ∧ status f = st.
Proof. by rewrite andb_true_iff, id_is_spec, String.eqb_eq. Qed.

Lemma action_branches_plant g s field_id :
  action_branches g s (Some "plant") field_id = ((plant s field_id).1, g, (plant s field_id).2).
Proof.
  unfold action_branches.
  change (is_action (Some "plant") "next_day") with false.
  change (is_action (Some "plant") "plant") with true.
  by destruct (plant s field_id).
Qed.

Lemma action_branches_water g s field_id :
  action_branches g s (Some "water") field_id = ((water s field_id).1, g, (water s field_id).2).
Proof.
  unfold action_branches.
  change (is_action (Some "water") "next_day") with false.
  change (is_action (Some "water") "plant") with false.
  change (is_action (Some "water") "water") with true.
  by destruct (water s field_id).
Qed.

Lemma action_branches_harvest g s field_id :
  action_branches g s (Some "harvest") field_id =
  ((harvest s field_id).1, g, (harvest s field_id).2).
Proof.
  unfold action_branches.
  change (is_action (Some "harvest") "next_day") with false.
  change (is_action (Some "harvest") "plant") with false.
  change (is_action (Some "harvest") "water") with false.
  change (is_action (Some "harvest") "harvest") with true.
  by destruct (harvest s field_id).
Qed.

Lemma action_branches_next_day g s field_id :
  action_branches g s (Some "next_day") field_id =
  ((advance_day g s).1.1, (advance_day g s).1.2,
   match (advance_day g s).2 with
   | None => Done true "A new day has dawned."
   | Some e => Raise e
   end).
Proof.
  unfold action_branches.
  change (is_action (Some "next_day") "next_day") with true.
  by destruct (advance_day g s) as [[s' g'] [e|]].
Qed.

(** C3: the plant action succeeds if and only if the inventory holds at
    least 1 "Maize Seed" and some field has the given id and status Fallow;
    on success the first such field gets crop Maize, status Growing and
    growth_stage 0, the "Maize Seed" count drops by exactly 1 and nothing
    else changes; on failure the player state is not changed at all. *)
Theorem plant_action (g : rng) (s : PlayerState) (field_id : option Z) :
  ∃ s' r,
    action_branches g s (Some "plant") field_id = (s', g, r) ∧
    (succeeded r ↔
       1 ≤ default 0 (inventory s !! "Maize Seed") ∧
       ∃ f, f ∈ fields s ∧ field_id = Some (id f) ∧ status f = "Fallow") ∧
    (succeeded r →
       ∃ i f,
         fields s !! i = Some f ∧ field_id = Some (id f) ∧ status f = "Fallow" ∧
         (∀ j h, (j < i)%nat → fields s !! j = Some h →
                 ¬ (field_id = Some (id h) ∧ status h = "Fallow")) ∧
         s' = set_inventory
                (<["Maize Seed" := default 0 (inventory s !! "Maize Seed") - 1]> (inventory s))
                (set_fields
                   (<[i := {| id := id f; crop := Some "Maize"; status := "Growing";
                              water_level := water_level f; growth_stage := 0;
                              health := health f |}]> (fields s)) s)) ∧
    (¬ succeeded r → s' = s).
Proof.
  rewrite action_branches_plant. eexists _, _. split; [reflexivity |].
  unfold plant. change ("Maize" +:+ " Seed") with "Maize Seed".
  destruct (0 <? default 0 (inventory s !! "Maize Seed")) eqn:Hseed.
  - apply Z.ltb_lt in Hseed.
    destruct (first_field _ (fields s)) as [[i f]|] eqn:Hff.
    + pose proof Hff as Hff'.
      apply first_field_Some in Hff' as (Hi & Hp & Hmin).
      apply id_status_spec in Hp as [Hid Hst]. simpl.
      assert (succeeded (Done true ("You planted Maize in Field "
                                    +:+ str_param field_id +:+ "."))) as Hok by by eexists.
      split; [| split].
      * split; [| done]. intros _. split; [lia |].
        exists f. split; [by eapply list_elem_of_lookup_2 | done].
      * intros _. exists i, f. do 3 (split; [done |]). split; [| done].
        intros j h Hj Hh Hc. specialize (Hmin j h Hj Hh).
        apply id_status_spec in Hc. congruence.
      * intros Hn. by destruct Hn.
    + simpl. rewrite first_field_None in Hff.
      assert (¬ succeeded not_recognized) as Hno by (intros [m [=]]).
      split; [| split]; [| done | done].
      split; [done |]. intros (_ & f & Hf & Hc). specialize (Hff f Hf).
      apply id_status_spec in Hc. congruence.
  - apply Z.ltb_ge in Hseed. simpl.
    assert (¬ succeeded not_recognized) as Hno by (intros [m [=]]).
    split; [| split]; [| done | done].
    split; [done |]. intros (? & _). lia.
Qed.

Lemma plant_action_witness :
  (∃ f, f ∈ fields seedless_farm ∧ Some 1 = Some (id f) ∧ status f = "Fallow") ∧
  ∃ r, action_branches (λ _, 7) seedless_farm (Some "plant") (Some 1)
         = (seedless_farm, (λ _, 7), r) ∧ ¬ succeeded r.
Proof.
  split.
  - exists (initial_field 1). split; [| split; reflexivity].
    apply list_elem_of_In. vm_compute. left. reflexivity.
  - destruct (plant_action (λ _, 7) seedless_farm (Some 1)) as (s' & r & Heq & Hiff & _ & Hno).
    assert (¬ succeeded r) as Hr.
    { intros Hs. destruct Hiff as [Hif _]. destruct (Hif Hs) as [Hseed _].
      vm_compute in Hseed. exact (Hseed eq_refl). }
    exists r. split; [| exact Hr]. rewrite (Hno Hr) in Heq. exact Heq.
Defined.

Lemma ripe_farm_reachable : reachable ripe_farm.
Proof. by repeat apply play_reachable; apply fresh_farm_reachable. Qed.

(** C4: on every player state whose harvestable fields carry catalog crops
    (every saved game is such a state, [reachable_inv]), the harvest action
    succeeds if and only if some field has the given id and status "Ready
    to Harvest"; on success it adds exactly the crop's configured yield (10
    for Maize) to the inventory entry "Harvested " + crop and resets the
    first such field to crop None, status Fallow, growth_stage 0, its
    water_level and health being left as they were. *)
Theorem harvest_action (g : rng) (s : PlayerState) (field_id : option Z) :
  ready_known (fields s) →
  ∃ s' r,
    action_branches g s (Some "harvest") field_id = (s', g, r) ∧
    (succeeded r ↔
       ∃ f, f ∈ fields s ∧ field_id = Some (id f) ∧ status f = "Ready to Harvest") ∧
    (succeeded r →
       ∃ i f crop_name crop_info,
         fields s !! i = Some f ∧ field_id = Some (id f) ∧
         status f = "Ready to Harvest" ∧
         (∀ j h, (j < i)%nat → fields s !! j = Some h →
                 ¬ (field_id = Some (id h) ∧ status h = "Ready to Harvest")) ∧
         crop f = Some crop_name ∧
         CROP_DATA !! crop_name = Some crop_info ∧
         (crop_name = "Maize" → yield crop_info = 10) ∧
         s' = set_fields
                (<[i := {| id := id f; crop := None; status := "Fallow";
                           water_level := water_level f; growth_stage := 0;
                           health := health f |}]> (fields s))
                (set_inventory
                   (<["Harvested " +:+ crop_name :=
                        default 0 (inventory s !! ("Harvested " +:+ crop_name))
                        + yield crop_info]> (inventory s)) s)).
Proof.
  intros Hk. rewrite action_branches_harvest. eexists _, _. split; [reflexivity |].
  unfold harvest.
  destruct (first_field _ (fields s)) as [[i f]|] eqn:Hff.
  - pose proof Hff as Hff'.
    apply first_field_Some in Hff' as (Hi & Hp & Hmin).
    apply id_status_spec in Hp as [Hid Hst].
    assert (f ∈ fields s) as Hf by by eapply list_elem_of_lookup_2.
    destruct (Hk f Hf Hst) as [info Hinfo].
    destruct (crop f) as [c|] eqn:Hc; [| discriminate]. simpl in Hinfo.
    rewrite Hinfo. simpl.
    assert (succeeded (Done true ("You harvested " +:+ pretty (yield info)
                                  +:+ " units of " +:+ c +:+ "!"))) as Hok by by eexists.
    split.
    + split; [| done]. intros _. by exists f.
    + intros _. exists i, f, c, info. do 3 (split; [done |]). split.
      { intros j h Hj Hh Hn. specialize (Hmin j h Hj Hh).
        apply id_status_spec in Hn. congruence. }
      do 2 (split; [done |]). split; [| done].
      intros ->. by injection Hinfo as <-.
  - simpl. rewrite first_field_None in Hff.
    assert (¬ succeeded not_recognized) as Hno by (intros [m [=]]).
    split; [| done]. split; [done |].
    intros (f & Hf & Hc). specialize (Hff f Hf).
    apply id_status_spec in Hc. congruence.
Qed.

Lemma harvest_action_witness :
  ∃ s' r,
    action_branches (λ _, 7) ripe_farm (Some "harvest") (Some 1) = (s', (λ _, 7), r) ∧
    (succeeded r ↔
       ∃ f, f ∈ fields ripe_farm ∧ Some 1 = Some (id f) ∧ status f = "Ready to Harvest") ∧
    (succeeded r →
       ∃ i f crop_name crop_info,
         fields ripe_farm !! i = Some f ∧ Some 1 = Some (id f) ∧
         status f = "Ready to Harvest" ∧
         (∀ j h, (j < i)%nat → fields ripe_farm !! j = Some h →
                 ¬ (Some 1 = Some (id h) ∧ status h = "Ready to Harvest")) ∧
         crop f = Some crop_name ∧
         CROP_DATA !! crop_name = Some crop_info ∧
         (crop_name = "Maize" → yield crop_info = 10) ∧
         s' = set_fields
                (<[i := {| id := id f; crop := None; status := "Fallow";
                           water_level := water_level f; growth_stage := 0;
                           health := health f |}]> (fields ripe_farm))
                (set_inventory
                   (<["Harvested " +:+ crop_name :=
                        default 0 (inventory ripe_farm !! ("Harvested " +:+ crop_name))
                        + yield crop_info]> (inventory ripe_farm)) ripe_farm)).
Proof.
  apply (harvest_action (λ _, 7) ripe_farm (Some 1)).
  apply field_inv_ready, reachable_inv, ripe_farm_reachable.
Defined.

(** C5: on every player state that has a field with the given id, whatever
    the field's status and whatever the balance, the water action succeeds
    without raising: the first field with that id gets water_level
    min(1.0, water_level + 0.4), the balance drops by exactly 100 with no
    test of the balance, and nothing else changes. *)
Theorem water_action (g : rng) (s : PlayerState) (z : Z) :
  (∃ f, f ∈ fields s ∧ id f = z) →
  ∃ s' message i f,
    action_branches g s (Some "water") (Some z) = (s', g, Done true message) ∧
    fields s !! i = Some f ∧ id f = z ∧
    (∀ j h, (j < i)%nat → fields s !! j = Some h → id h ≠ z) ∧
    balance s' = balance s - 100 ∧
    fields s' = <[i := {| id := id f; crop := crop f; status := status f;
                          water_level := min1 (PrimFloat.add (water_level f) 0.4%float);
                          growth_stage := growth_stage f; health := health f |}]> (fields s) ∧
    s' = set_balance (balance s - 100) (set_fields (fields s') s).
Proof.
  intros (f0 & Hf0 & Hid0). rewrite action_branches_water. unfold water.
  destruct (first_field _ (fields s)) as [[i f]|] eqn:Hff.
  - apply first_field_Some in Hff as (Hi & Hp & Hmin).
    apply id_is_spec in Hp. injection Hp as Hp. simpl.
    eexists _, _, i, f. split; [reflexivity |]. do 2 (split; [done |]).
    split; [| done]. intros j h Hj Hh Heq. specialize (Hmin j h Hj Hh).
    assert (id_is (Some z) h = true); [| congruence].
    apply id_is_spec. by rewrite Heq.
  - rewrite first_field_None in Hff. specialize (Hff f0 Hf0).
    assert (id_is (Some z) f0 = true); [| congruence].
    apply id_is_spec. by rewrite Hid0.
Qed.

Lemma water_action_witness :
  balance broke_farm = 0 ∧
  ∃ s' message,
    action_branches (λ _, 7) broke_farm (Some "water") (Some 1)
      = (s', (λ _, 7), Done true message) ∧
    balance s' = -100.
Proof.
  split; [reflexivity |].
  destruct (water_action (λ _, 7) broke_farm 1) as (s' & m & i & f & H & _ & _ & _ & Hb & _).
  - exists (set_water_level 1%float (initial_field 1)). split; [| reflexivity].
    apply list_elem_of_In. vm_compute. left. reflexivity.
  - exists s', m. split; [exact H |]. rewrite Hb. reflexivity.
Defined.

(** ** Invariants of saved games *)

(** C6: in every player state produced by [initialize_game_state] and then
    changed only by the actions, a field's crop is present if and only if
    its status is Growing or Ready to Harvest, and a Fallow field has
    growth_stage 0; in particular, whenever an action takes a field from
    another status back to Fallow, its growth_stage is 0 afterwards. *)
Theorem crop_status_invariant (s : PlayerState) :
  reachable s →
  (∀ f, f ∈ fields s →
     (is_Some (crop f) ↔ status f = "Growing" ∨ status f = "Ready to Harvest") ∧
     (status f = "Fallow" → growth_stage f = 0)) ∧
  (∀ g action_type field_id i f f',
     fields s !! i = Some f →
     fields (action_branches g s action_type field_id).1.1 !! i = Some f' →
     status f ≠ "Fallow" → status f' = "Fallow" →
     crop f' = None ∧ growth_stage f' = 0).
Proof.
  assert (∀ s0, reachable s0 → ∀ f, f ∈ fields s0 →
            (is_Some (crop f) ↔ status f = "Growing" ∨ status f = "Ready to Harvest") ∧
            (status f = "Fallow" → crop f = None ∧ growth_stage f = 0)) as Hall.
  { intros s0 Hr f Hf. apply reachable_inv in Hr.
    unfold state_inv in Hr. rewrite Forall_forall in Hr.
    destruct (Hr f Hf) as [_ [(Hst & Hc & Hn) | (Hst & Hc)]].
    - rewrite Hst, Hc. split; [| done]. split.
      + intros [? [=]].
      + intros [[=] | [=]].
    - rewrite Hc. split; [by split; eauto |].
      intros Hfa. rewrite Hfa in Hst. by destruct Hst. }
  intros Hr. split.
  - intros f Hf. destruct (Hall s Hr f Hf) as [H1 H2]. split; [done |].
    intros Hst. by apply H2.
  - intros g a fid i f f' _ Hi' _ Hst.
    apply (Hall (action_branches g s a fid).1.1); [by apply reach_action | | done].
    by eapply list_elem_of_lookup_2.
Qed.

Lemma crop_status_invariant_witness :
  (∀ f, f ∈ fields ripe_farm →
     (is_Some (crop f) ↔ status f = "Growing" ∨ status f = "Ready to Harvest") ∧
     (status f = "Fallow" → growth_stage f = 0)) ∧
  (∀ g action_type field_id i f f',
     fields ripe_farm !! i = Some f →
     fields (action_branches g ripe_farm action_type field_id).1.1 !! i = Some f' →
     status f ≠ "Fallow" → status f' = "Fallow" →
     crop f' = None ∧ growth_stage f' = 0).
Proof. exact (crop_status_invariant ripe_farm ripe_farm_reachable). Defined.

Lemma advance_day_result g s : (advance_day g s).2 = (advance_fields (fields s)).2.
Proof.
  unfold advance_day. destruct (reroll_prices _ g) as [mp g']. simpl.
  by destruct (advance_fields (fields s)).
Qed.

(** C7: the next_day action succeeds on every state reachable from
    [initialize_game_state] through the actions; [advance_day] raises
    exactly when some field with a crop set and status Growing carries a
    crop that is absent from the Crop Catalog, and then it raises the
    error of subscripting the missing catalog entry. *)
Theorem next_day_always_succeeds (g : rng) (s : PlayerState) (field_id : option Z) :
  reachable s →
  (∃ s' g',
     advance_day g s = (s', g', None) ∧
     action_branches g s (Some "next_day") field_id
       = (s', g', Done true "A new day has dawned.")) ∧
  (∀ g0 s0,
     (advance_day g0 s0).2 ≠ None ↔
     ∃ f, f ∈ fields s0 ∧ truthy (crop f) = true ∧ status f = "Growing" ∧
          catalog (crop f) = None).
Proof.
  intros Hr. split.
  - rewrite action_branches_next_day.
    destruct (advance_day_inv g s (reachable_inv s Hr)) as [_ Hnone].
    destruct (advance_day g s) as [[s' g'] r]. simpl in *. subst r. eauto.
  - intros g0 s0. rewrite advance_day_result, advance_fields_raises.
    split; intros (f & Hf & H); exists f; (split; [done |]).
    + destruct H as [Hg Hc]. apply is_growing_spec in Hg as [? ?]. done.
    + destruct H as (Ht & Hst & Hc). split; [| done]. by apply is_growing_spec.
Qed.

Lemma next_day_always_succeeds_witness :
  (∃ s' g',
     advance_day (λ _, 7) ripe_farm = (s', g', None) ∧
     action_branches (λ _, 7) ripe_farm (Some "next_day") None
       = (s', g', Done true "A new day has dawned.")) ∧
  (∀ g0 s0,
     (advance_day g0 s0).2 ≠ None ↔
     ∃ f, f ∈ fields s0 ∧ truthy (crop f) = true ∧ status f = "Growing" ∧
          catalog (crop f) = None).
Proof. exact (next_day_always_succeeds (λ _, 7) ripe_farm None ripe_farm_reachable). Defined.

Lemma randint_range a b g : a ≤ b → a ≤ (randint a b g).1 ≤ b.
Proof.
  intros Hab. unfold randint. simpl.
  pose proof (Z.mod_pos_bound (g 0%nat) (b - a + 1) ltac:(lia)). lia.
Qed.

(** ** The initializer *)

(** C8: for every player name and every region name that is a key of the
    Region Catalog, [initialize_game_state] returns a state with balance
    50000, current_day 1, exactly two fields (ids 1 and 2), both Fallow
    with water_level 0.5, growth_stage 0 and health 100, one livestock
    group (Goats, count 5, health 90, feed_level 0.7), the inventory
    {Maize Seed: 10, Fertilizer: 5, Goat Feed: 20, Harvested Maize: 0} and
    no other entry, one active quest "main_quest_1" whose description and
    learning point contain the region name, and market_prices mapping only
    "Harvested Maize", to an integer between 500 and 800. *)
Theorem initialize_game_state_spec (player_name region_name : string) (g : rng) :
  is_Some (REGIONS !! region_name) →
  let s := (initialize_game_state player_name region_name g).1 in
  playerName s = player_name ∧ region s = region_name ∧
  region_info s = REGIONS !! region_name ∧
  balance s = 50000 ∧ current_day s = 1 ∧
  (∃ f1 f2, fields s = [f1; f2] ∧ id f1 = 1 ∧ id f2 = 2 ∧
     ∀ f, f ∈ fields s →
       crop f = None ∧ status f = "Fallow" ∧ water_level f = 0.5%float ∧
       growth_stage f = 0 ∧ health f = 100) ∧
  livestock s = [{| ls_type := "Goats"; ls_count := 5; ls_health := 90;
                    ls_feed_level := 0.7%float |}] ∧
  (inventory s !! "Maize Seed" = Some 10 ∧ inventory s !! "Fertilizer" = Some 5 ∧
   inventory s !! "Goat Feed" = Some 20 ∧ inventory s !! "Harvested Maize" = Some 0 ∧
   dom (inventory s)
     = ({[ "Maize Seed"; "Fertilizer"; "Goat Feed"; "Harvested Maize" ]} : gset string)) ∧
  (∃ q, active_quests s = [q] ∧ quest_id q = "main_quest_1" ∧ is_complete q = false ∧
     (∃ pre post, description q = pre +:+ region_name +:+ post) ∧
     (∃ pre post, learning_point q = pre +:+ region_name +:+ post)) ∧
  (∃ price, market_prices s = [("Harvested Maize", price)] ∧ 500 ≤ price ≤ 800).
Proof.
  intros _. simpl. do 5 (split; [reflexivity |]). split; [| split; [| split; [| split]]].
  - eexists _, _. split; [reflexivity |]. do 2 (split; [reflexivity |]).
    intros f Hf. repeat (apply elem_of_cons in Hf as [-> | Hf]); [done | done |].
    inversion Hf.
  - reflexivity.
  - do 4 (split; [reflexivity |]).
    rewrite !dom_insert_L, dom_empty_L. set_solver.
  - eexists. split; [reflexivity |]. simpl. do 2 (split; [reflexivity |]).
    split; eexists _, _; reflexivity.
  - eexists. split; [reflexivity |]. apply (randint_range 500 800 g). lia.
Qed.

Lemma initialize_game_state_spec_witness :
  let s := (initialize_game_state "Amina" "Morogoro" (λ _, 7)).1 in
  is_Some (REGIONS !! "Morogoro") ∧
  balance s = 50000 ∧ current_day s = 1 ∧ length (fields s) = 2%nat ∧
  market_prices s = [("Harvested Maize", 507)].
Proof.
  assert (is_Some (REGIONS !! "Morogoro")) as Hregion by (eexists; reflexivity).
  pose proof (initialize_game_state_spec "Amina" "Morogoro" (λ _, 7) Hregion) as H.
  simpl in H. destruct H as (_ & _ & _ & Hb & Hd & _).
  split; [exact Hregion |]. split; [exact Hb |]. split; [exact Hd |].
  split; reflexivity.
Defined.

(** ** The store of saves *)

(** A branch that does not set [success] has written nothing. *)
Lemma action_branches_failed g s action_type field_id s' g' message :
  action_branches g s action_type field_id = (s', g', Done false message) → s' = s.
Proof.
  unfold action_branches.
  destruct (is_action action_type "next_day").
  { destruct (advance_day g s) as [[s1 g1] [e|]]; intros [=]. }
  destruct (is_action action_type "plant").
  { unfold plant. destruct (0 <? _); [| by intros [= <-]].
    destruct (first_field _ _) as [[i f]|]; [intros [=] | by intros [= <-]]. }
  destruct (is_action action_type "water").
  { unfold water.
    destruct (first_field _ _) as [[i f]|]; [intros [=] | by intros [= <-]]. }
  destruct (is_action action_type "harvest").
  { unfold harvest.
    destruct (first_field _ _) as [[i f]|]; [| by intros [= <-]].
    destruct (crop f) as [c|]; [| intros [=]].
    destruct (CROP_DATA !! c); intros [=]. }
  by intros [= <-].
Qed.

(** On a saved game no branch raises. *)
Lemma action_branches_returns g s action_type field_id :
  state_inv s → ∃ success message,
    (action_branches g s action_type field_id).2 = Done success message.
Proof.
  intros Hinv. unfold action_branches.
  destruct (is_action action_type "next_day").
  { destruct (advance_day_inv g s Hinv) as [_ Hnone].
    destruct (advance_day g s) as [[s1 g1] r]. simpl in Hnone. subst r. simpl. eauto. }
  destruct (is_action action_type "plant").
  { unfold plant. destruct (0 <? _); [| simpl; eauto].
    destruct (first_field _ _) as [[i f]|]; simpl; eauto. }
  destruct (is_action action_type "water").
  { unfold water. destruct (first_field _ _) as [[i f]|]; simpl; eauto. }
  destruct (is_action action_type "harvest").
  { unfold harvest.
    destruct (first_field _ _) as [[i f]|] eqn:Hff; [| simpl; eauto].
    apply first_field_Some in Hff as (Hi & Hp & _).
    apply id_status_spec in Hp as [_ Hst].
    destruct (field_inv_ready _ Hinv f) as [info Hinfo];
      [by eapply list_elem_of_lookup_2 | done |].
    destruct (crop f) as [c|]; [| discriminate]. simpl in Hinfo. rewrite Hinfo.
    simpl. eauto. }
  simpl. eauto.
Qed.

Lemma saved_player_Some saves req name s :
  saved_player saves req = Some (name, s) ↔
  req_playerName req = Some name ∧ name ≠ EmptyString ∧ saves !! name = Some s.
Proof.
  unfold saved_player. destruct (req_playerName req) as [n|].
  - destruct (String.eqb n EmptyString) eqn:Hn.
    + apply String.eqb_eq in Hn. split; [discriminate |].
      intros ([= ->] & Hne & _). done.
    + apply String.eqb_neq in Hn. destruct (saves !! n) as [s0|] eqn:Hs.
      * split; [by intros [= <- <-] |]. intros ([= ->] & _ & Hl). congruence.
      * split; [discriminate |]. intros ([= ->] & _ & Hl). congruence.
  - split; [discriminate |]. by intros ([=] & _).
Qed.

Lemma saved_player_None saves req :
  saved_player saves req = None ↔
  ∀ name, req_playerName req = Some name → name = EmptyString ∨ saves !! name = None.
Proof.
  unfold saved_player. destruct (req_playerName req) as [name|]; [| by split].
  destruct (String.eqb name EmptyString) eqn:Hname.
  - apply String.eqb_eq in Hname. split; [| done]. intros _ n [= <-]. by left.
  - apply String.eqb_neq in Hname. destruct (saves !! name) as [s|] eqn:Hs.
    + split; [discriminate |]. intros H. destruct (H name eq_refl); congruence.
    + split; [| done]. intros _ n [= <-]. by right.
Qed.

(** With a [params] that can be asked, the chain is the chain on the
    [field_id] it holds; otherwise plant, water and harvest raise at once. *)
Lemma action_with_params_eq g s req :
  action_with_params g s (req_action req) (req_params req)
    = action_branches g s (req_action req) (req_field_id req) ∨
  (req_params req = ParamsOther ∧
   action_with_params g s (req_action req) (req_params req)
     = (s, g, Raise AttributeError)).
Proof.
  unfold action_with_params, req_field_id.
  destruct (is_action (req_action req) "next_day") eqn:Hn.
  { left. unfold action_branches. by rewrite Hn. }
  destruct (is_action (req_action req) "plant" || is_action (req_action req) "water"
            || is_action (req_action req) "harvest") eqn:Hreads.
  - destruct (req_params req); simpl; auto.
  - apply orb_false_iff in Hreads as [Hpw Hh]. apply orb_false_iff in Hpw as [Hp Hw].
    left. unfold action_branches. by rewrite Hn, Hp, Hw, Hh.
Qed.

Lemma req_name_container req :
  req_name req = NameContainer ∨ req_name req ≠ NameContainer.
Proof. destruct (req_name req); auto. Qed.

Lemma perform_action_hashable g saves req :
  req_name req ≠ NameContainer → perform_action g saves req = dispatch_saved g saves req.
Proof. unfold perform_action. by destruct (req_name req). Qed.

Lemma perform_action_container g saves req :
  req_name req = NameContainer → perform_action g saves req = (saves, g, Raised TypeError).
Proof. unfold perform_action. by intros ->. Qed.

(** Whatever the store holds, a response other than the success response
    comes with the store as it was. *)
Lemma perform_action_failure g saves req saves' g' resp :
  perform_action g saves req = (saves', g', Returned resp) →
  code resp ≠ 200 → saves' = saves.
Proof.
  destruct (req_name_container req) as [Hc | Hc].
  { by rewrite perform_action_container. }
  rewrite perform_action_hashable by done. unfold dispatch_saved.
  destruct (saved_player saves req) as [[name s]|] eqn:Hsp; [| by intros [= <- _ _]].
  apply saved_player_Some in Hsp as (_ & _ & Hs).
  destruct (action_with_params_eq g s req) as [-> | [_ ->]]; [| discriminate].
  destruct (action_branches g s (req_action req) (req_field_id req))
    as [[s1 g1] r] eqn:Hab.
  destruct r as [[|] message | e]; [| | discriminate].
  - intros [= _ _ <-]. simpl. done.
  - apply action_branches_failed in Hab as ->. intros [= <- _ _] _. by apply insert_id.
Qed.

(** C9: on a store of saved games a dispatch through [perform_action] that
    does not end in the success response leaves the store exactly as it
    was, whether it ends in an error response or in an exception.  A
    request naming a player that is not in the store is answered 404 and
    creates no entry; a request whose [params] can be asked always gets a
    response, 400 when its action is not applied; the only exceptions are
    the TypeError of a name that cannot be hashed and the AttributeError
    of a [params] without [get], both raised before anything is written. *)
Theorem failed_dispatch_keeps_store (g : rng) (saves : gmap string PlayerState)
    (req : Request) :
  (∀ name s, saves !! name = Some s → reachable s) →
  ∃ saves' g' out,
    perform_action g saves req = (saves', g', out) ∧
    (req_name req ≠ NameContainer →
     (∀ name, req_playerName req = Some name → saves !! name = None) →
       ∃ resp, out = Returned resp ∧ code resp = 404 ∧
               resp_status resp = "error" ∧ saves' = saves) ∧
    (req_name req ≠ NameContainer → req_params req ≠ ParamsOther →
       ∃ resp, out = Returned resp) ∧
    match out with
    | Returned resp =>
        (code resp = 200 ∨ code resp = 400 ∨ code resp = 404) ∧
        (code resp ≠ 200 →
           resp_status resp = "error" ∧ new_state resp = None ∧ saves' = saves)
    | Raised e =>
        saves' = saves ∧ g' = g ∧
        ((e = TypeError ∧ req_name req = NameContainer) ∨
         (e = AttributeError ∧ req_params req = ParamsOther))
    end.
Proof.
  intros Hsaves.
  destruct (req_name_container req) as [Hc | Hc].
  { rewrite perform_action_container by done. eexists _, _, _.
    split; [reflexivity |]. do 2 (split; [done |]). auto. }
  rewrite perform_action_hashable by done. unfold dispatch_saved.
  destruct (saved_player saves req) as [[name s]|] eqn:Hsp.
  - apply saved_player_Some in Hsp as (Hn & _ & Hs).
    destruct (action_with_params_eq g s req) as [-> | [Hp ->]].
    + destruct (action_branches_returns g s (req_action req) (req_field_id req))
        as (success & message & Hr).
      { apply reachable_inv. by eapply Hsaves. }
      destruct (action_branches g s (req_action req) (req_field_id req))
        as [[s' g'] r] eqn:Hab. simpl in Hr. subst r.
      destruct success.
      * eexists _, _, _. split; [reflexivity |]. simpl. split.
        { intros _ Hmiss. specialize (Hmiss name Hn). congruence. }
        split; [by eexists |]. split; [by left | done].
      * apply action_branches_failed in Hab as ->.
        eexists _, _, _. split; [reflexivity |]. simpl. split.
        { intros _ Hmiss. specialize (Hmiss name Hn). congruence. }
        split; [by eexists |]. split; [by right; left |].
        intros _. do 2 (split; [done |]). by apply insert_id.
    + eexists _, _, _. split; [reflexivity |]. simpl. split.
      { intros _ Hmiss. specialize (Hmiss name Hn). congruence. }
      split; [done |]. split; [by apply insert_id |]. auto.
  - eexists _, _, _. split; [reflexivity |]. simpl. split; [by eexists |].
    split; [by eexists |]. split; [by right; right | done].
Qed.

Lemma one_save_reachable name s : one_save !! name = Some s → reachable s.
Proof.
  unfold one_save. intros H. apply lookup_singleton_Some in H as [_ <-].
  exact ripe_farm_reachable.
Qed.

Lemma failed_dispatch_keeps_store_witness :
  (∃ resp,
     perform_action (λ _, 7) one_save plant_request
       = (one_save, (λ _, 7), Returned resp) ∧
     code resp = 400 ∧ resp_status resp = "error") ∧
  perform_action (λ _, 7) one_save null_params_request
    = (one_save, (λ _, 7), Raised AttributeError).
Proof.
  split.
  - destruct (failed_dispatch_keeps_store (λ _, 7) one_save plant_request
                one_save_reachable) as (saves' & g' & out & Heq & _ & Hret & Hout).
    destruct Hret as [resp ->]; [discriminate | discriminate |].
    assert (code resp = 400 ∧ g' = (λ _, 7)) as [Hcode ->].
    { vm_compute in Heq. by injection Heq as _ <- <-. }
    destruct Hout as [_ Hfail].
    destruct Hfail as (Hst & _ & ->); [rewrite Hcode; discriminate |].
    exists resp. split; [exact Heq |]. split; [exact Hcode | exact Hst].
  - destruct (failed_dispatch_keeps_store (λ _, 7) one_save null_params_request
                one_save_reachable) as (saves' & g' & out & Heq & _ & _ & Hout).
    destruct out as [resp | e]; [vm_compute in Heq; discriminate Heq |].
    destruct Hout as (-> & -> & [[_ Hname] | [-> _]]); [discriminate Hname |].
    exact Heq.
Defined.

(** C10: in every player state reachable from [initialize_game_state]
    through plant, water, harvest and next_day, every field's water_level
    lies in the closed interval from 0 to 1. *)
Theorem water_level_bounds (s : PlayerState) (f : Field) :
  reachable s → f ∈ fields s →
  PrimFloat.leb 0%float (water_level f) = true ∧
  PrimFloat.leb (water_level f) 1%float = true.
Proof.
  intros Hr Hf. apply reachable_inv in Hr.
  unfold state_inv in Hr. rewrite Forall_forall in Hr.
  apply water_levels_bounded. by destruct (Hr f Hf).
Qed.

Lemma water_level_bounds_witness :
  PrimFloat.leb 0%float (water_level ripe_field) = true ∧
  PrimFloat.leb (water_level ripe_field) 1%float = true.
Proof.
  apply (water_level_bounds ripe_farm ripe_field ripe_farm_reachable).
  apply list_elem_of_In. vm_compute. left. reflexivity.
Defined.

(** * Further properties of the code *)

(** ** More on advance_day *)

Lemma reroll_prices_spec mp g :
  (reroll_prices mp g).1.*1 = mp.*1 ∧
  Forall (λ p, 500 ≤ p.2 ≤ 800) (reroll_prices mp g).1 ∧
  ∀ n, (reroll_prices mp g).2 n = g (length mp + n)%nat.
Proof.
  revert g. induction mp as [|[item old] mp IH]; intros g; simpl.
  - split; [done |]. split; [constructor | done].
  - pose proof (randint_range 500 800 g ltac:(lia)) as Hrange.
    unfold randint in *. simpl in Hrange.
    destruct (IH (λ n, g (S n))) as (Hk & Hr & Hg).
    destruct (reroll_prices mp (λ n, g (S n))) as [rest g2]. simpl in *.
    split; [f_equal; exact Hk |]. split; [by constructor | done].
Qed.

Lemma advance_day_frame g s :
  current_day (advance_day g s).1.1 = current_day s + 1 ∧
  (market_prices (advance_day g s).1.1).*1 = (market_prices s).*1 ∧
  Forall (λ p, 500 ≤ p.2 ≤ 800) (market_prices (advance_day g s).1.1) ∧
  (∀ n, (advance_day g s).1.2 n = g (length (market_prices s) + n)%nat) ∧
  balance (advance_day g s).1.1 = balance s ∧
  inventory (advance_day g s).1.1 = inventory s ∧
  livestock (advance_day g s).1.1 = livestock s ∧
  active_quests (advance_day g s).1.1 = active_quests s.
Proof.
  unfold advance_day. simpl.
  destruct (reroll_prices_spec (market_prices s) g) as (Hk & Hr & Hg).
  destruct (reroll_prices (market_prices s) g) as [mp g'].
  destruct (advance_fields (fields s)) as [fs r]. simpl in *. done.
Qed.

(** X1: [advance_day], whether it returns or raises, adds exactly 1 to
    current_day, gives every item of market_prices a price between 500 and
    800 while keeping the items and their order, draws one random number
    per item, and leaves balance, inventory, livestock and quests alone. *)
Theorem advance_day_day_and_prices (g : rng) (s : PlayerState) :
  let s' := (advance_day g s).1.1 in
  current_day s' = current_day s + 1 ∧
  (market_prices s').*1 = (market_prices s).*1 ∧
  Forall (λ p, 500 ≤ p.2 ≤ 800) (market_prices s') ∧
  (∀ n, (advance_day g s).1.2 n = g (length (market_prices s) + n)%nat) ∧
  balance s' = balance s ∧ inventory s' = inventory s ∧
  livestock s' = livestock s ∧ active_quests s' = active_quests s.
Proof.
  unfold advance_day. simpl.
  destruct (reroll_prices_spec (market_prices s) g) as (Hkeys & Hrange & Hdraws).
  destruct (reroll_prices (market_prices s) g) as [mp g'].
  destruct (advance_fields (fields s)) as [fs r]. simpl in *.
  split; [done |]. split; [exact Hkeys |]. split; [exact Hrange |].
  split; [exact Hdraws | done].
Qed.

Lemma advance_field_frame f :
  id (advance_field f).1 = id f ∧ crop (advance_field f).1 = crop f ∧
  health (advance_field f).1 = health f ∧
  (status (advance_field f).1 = status f ∨
   status f = "Growing" ∧ status (advance_field f).1 = "Ready to Harvest") ∧
  (growth_stage (advance_field f).1 = growth_stage f ∨
   growth_stage (advance_field f).1 = growth_stage f + 1).
Proof.
  rewrite advance_field_eq. destruct (is_growing f) eqn:Hg; [| simpl; auto 10].
  apply is_growing_spec in Hg as [_ Hst]. unfold grown_stage. simpl.
  destruct (catalog (crop f)) as [info|]; [destruct (growth_time info <=? _) |];
    simpl; destruct (PrimFloat.ltb 0.4%float (water_level f)); auto 10.
Qed.

Lemma advance_fields_Forall2 fs :
  Forall2 (λ f f', f' = f ∨ f' = (advance_field f).1) fs (advance_fields fs).1.
Proof.
  induction fs as [|a fs IH]; simpl; [constructor |].
  destruct (advance_field a) as [a' [e|]] eqn:Ha.
  - simpl. constructor; [right; by rewrite Ha |].
    apply Forall_Forall2_diag, Forall_true. auto.
  - destruct (advance_fields fs) as [rest' r]. simpl in *.
    constructor; [right; by rewrite Ha | done].
Qed.

Lemma advance_day_fields g s : fields (advance_day g s).1.1 = (advance_fields (fields s)).1.
Proof.
  unfold advance_day. destruct (reroll_prices _ g) as [mp g']. simpl.
  by destruct (advance_fields (fields s)).
Qed.

(** X2: [advance_day], whether it returns or raises, keeps the number and
    the order of the fields and every field's id, crop and health; a
    status changes only from Growing to Ready to Harvest, and a
    growth_stage rises by at most 1. *)
Theorem advance_day_field_frame (g : rng) (s : PlayerState) :
  length (fields (advance_day g s).1.1) = length (fields s) ∧
  ∀ i f, fields s !! i = Some f →
    ∃ f', fields (advance_day g s).1.1 !! i = Some f' ∧
      id f' = id f ∧ crop f' = crop f ∧ health f' = health f ∧
      (status f' = status f ∨
       status f = "Growing" ∧ status f' = "Ready to Harvest") ∧
      (growth_stage f' = growth_stage f ∨ growth_stage f' = growth_stage f + 1).
Proof.
  rewrite advance_day_fields. pose proof (advance_fields_Forall2 (fields s)) as H2.
  split; [symmetry; by eapply Forall2_length |].
  intros i f Hi. destruct (Forall2_lookup_l _ _ _ i f H2 Hi) as (f' & Hi' & Hch).
  exists f'. split; [done |]. destruct Hch as [-> | ->]; [auto 10 |].
  apply advance_field_frame.
Qed.

(** ** What an action changes and what it leaves alone *)

Lemma is_action_spec action_type name : is_action action_type name = true ↔ action_type = Some name.
Proof.
  destruct action_type as [a|]; simpl; [| done].
  rewrite String.eqb_eq. split; [by intros -> | by intros [= ->]].
Qed.

Lemma is_action_false action_type name :
  is_action action_type name = false ↔ action_type ≠ Some name.
Proof.
  rewrite <- is_action_spec. by destruct (is_action action_type name).
Qed.

Lemma Forall2_insert_diag (R : Field → Field → Prop) fs i f f' :
  (∀ x, R x x) → fs !! i = Some f → R f f' → Forall2 R fs (<[i := f']> fs).
Proof.
  intros Hrefl Hi HR. rewrite <- (list_insert_id fs i f Hi) at 1.
  apply Forall2_insert; [| done]. apply Forall_Forall2_diag, Forall_true. done.
Qed.

Lemma Forall2_fmap_eq {B} (h : Field → B) (R : Field → Field → Prop) fs fs' :
  (∀ f f', R f f' → h f' = h f) → Forall2 R fs fs' → h <$> fs' = h <$> fs.
Proof.
  intros HR H. induction H as [|f f' fs fs' Hf _ IH]; [done |].
  rewrite !fmap_cons. f_equal; auto.
Qed.

Lemma field_change_refl f : field_change f f.
Proof. by left. Qed.

(** Every branch changes the fields position by position, each field by
    one of the moves of [field_change]. *)
Lemma action_branches_field_change g s action_type field_id :
  Forall2 field_change (fields s) (fields (action_branches g s action_type field_id).1.1).
Proof.
  assert (Forall2 field_change (fields s) (fields s)) as Hsame.
  { apply Forall_Forall2_diag, Forall_true, field_change_refl. }
  unfold action_branches.
  destruct (is_action action_type "next_day").
  { pose proof (advance_day_fields g s) as Hf.
    destruct (advance_day g s) as [[s' g'] [e|]]; simpl in *; rewrite Hf;
      (eapply Forall2_impl; [apply advance_fields_Forall2 |]);
      intros f f' [-> | ->]; unfold field_change; auto. }
  destruct (is_action action_type "plant").
  { unfold plant. destruct (0 <? _); [| done].
    destruct (first_field _ _) as [[i f]|] eqn:Hff; [| done].
    apply first_field_Some in Hff as (Hi & Hp & _).
    apply id_status_spec in Hp as [_ Hst]. simpl.
    apply (Forall2_insert_diag _ _ i f); [apply field_change_refl | done |].
    unfold field_change. auto. }
  destruct (is_action action_type "water").
  { unfold water. destruct (first_field _ _) as [[i f]|] eqn:Hff; [| done].
    apply first_field_Some in Hff as (Hi & _ & _). simpl.
    apply (Forall2_insert_diag _ _ i f); [apply field_change_refl | done |].
    unfold field_change. auto. }
  destruct (is_action action_type "harvest").
  { unfold harvest. destruct (first_field _ _) as [[i f]|] eqn:Hff; [| done].
    apply first_field_Some in Hff as (Hi & Hp & _).
    apply id_status_spec in Hp as [_ Hst].
    destruct (crop f) as [c|]; [| done]. destruct (CROP_DATA !! c); [| done]. simpl.
    apply (Forall2_insert_diag _ _ i f); [apply field_change_refl | done |].
    unfold field_change. auto 10. }
  done.
Qed.

Lemma field_change_frame f f' :
  field_change f f' → id f' = id f ∧ health f' = health f.
Proof.
  intros [-> | [-> | [[_ ->] | [-> | [_ ->]]]]]; try done.
  by destruct (advance_field_frame f) as (? & _ & ? & _).
Qed.

(** The parts of a state no branch writes. *)
Lemma action_branches_static g s action_type field_id :
  playerName (action_branches g s action_type field_id).1.1 = playerName s ∧
  region (action_branches g s action_type field_id).1.1 = region s ∧
  region_info (action_branches g s action_type field_id).1.1 = region_info s ∧
  currency (action_branches g s action_type field_id).1.1 = currency s ∧
  livestock (action_branches g s action_type field_id).1.1 = livestock s ∧
  active_quests (action_branches g s action_type field_id).1.1 = active_quests s ∧
  nasa_data (action_branches g s action_type field_id).1.1 = nasa_data s.
Proof.
  unfold action_branches.
  destruct (is_action action_type "next_day").
  { unfold advance_day. destruct (reroll_prices _ g) as [mp g'].
    destruct (advance_fields _) as [fs [e|]]; done. }
  destruct (is_action action_type "plant").
  { unfold plant. destruct (0 <? _); [| done].
    by destruct (first_field _ _) as [[i f]|]. }
  destruct (is_action action_type "water").
  { unfold water. by destruct (first_field _ _) as [[i f]|]. }
  destruct (is_action action_type "harvest").
  { unfold harvest. destruct (first_field _ _) as [[i f]|]; [| done].
    destruct (crop f) as [c|]; [| done]. by destruct (CROP_DATA !! c). }
  done.
Qed.

(** Only next_day moves the day, the prices and the generator. *)
Lemma action_branches_time g s action_type field_id :
  action_type ≠ Some "next_day" →
  current_day (action_branches g s action_type field_id).1.1 = current_day s ∧
  market_prices (action_branches g s action_type field_id).1.1 = market_prices s ∧
  (action_branches g s action_type field_id).1.2 = g.
Proof.
  intros Hn. apply is_action_false in Hn. unfold action_branches. rewrite Hn.
  destruct (is_action action_type "plant").
  { unfold plant. destruct (0 <? _); [| done].
    by destruct (first_field _ _) as [[i f]|]. }
  destruct (is_action action_type "water").
  { unfold water. by destruct (first_field _ _) as [[i f]|]. }
  destruct (is_action action_type "harvest").
  { unfold harvest. destruct (first_field _ _) as [[i f]|]; [| done].
    destruct (crop f) as [c|]; [| done]. by destruct (CROP_DATA !! c). }
  done.
Qed.

(** Only water touches the balance, and it takes 100. *)
Lemma action_branches_balance g s action_type field_id :
  (balance (action_branches g s action_type field_id).1.1 = balance s ∨
   action_type = Some "water" ∧
   balance (action_branches g s action_type field_id).1.1 = balance s - 100).
Proof.
  unfold action_branches.
  destruct (is_action action_type "next_day").
  { left. destruct (advance_day_frame g s) as (_ & _ & _ & _ & Hb & _).
    by destruct (advance_day g s) as [[s' g'] [e|]]. }
  destruct (is_action action_type "plant").
  { left. unfold plant. destruct (0 <? _); [| done].
    by destruct (first_field _ _) as [[i f]|]. }
  destruct (is_action action_type "water") eqn:Hw.
  { apply is_action_spec in Hw. unfold water.
    destruct (first_field _ _) as [[i f]|]; simpl; auto. }
  destruct (is_action action_type "harvest").
  { left. unfold harvest. destruct (first_field _ _) as [[i f]|]; [| done].
    destruct (crop f) as [c|]; [| done]. by destruct (CROP_DATA !! c). }
  by left.
Qed.

(** Only plant and harvest touch the inventory. *)
Lemma action_branches_inventory g s action_type field_id :
  action_type ≠ Some "plant" → action_type ≠ Some "harvest" →
  inventory (action_branches g s action_type field_id).1.1 = inventory s.
Proof.
  intros Hp Hh. apply is_action_false in Hp, Hh. unfold action_branches.
  rewrite Hp, Hh.
  destruct (is_action action_type "next_day").
  { destruct (advance_day_frame g s) as (_ & _ & _ & _ & _ & Hi & _).
    by destruct (advance_day g s) as [[s' g'] [e|]]. }
  destruct (is_action action_type "water"); [| done].
  unfold water. by destruct (first_field _ _) as [[i f]|].
Qed.

(** X3: whatever the state, the action and its outcome, a branch of
    [perform_action] never writes the player's name, region, region
    record, currency, livestock, quests or environmental reading, keeps
    the number of fields and every field's id and health, and changes the
    balance only by the 100 that water takes; an action other than
    next_day leaves the day, the prices and the random generator alone,
    and an action other than plant and harvest leaves the inventory
    alone. *)
Theorem action_frame (g : rng) (s : PlayerState) (action_type : option string)
    (field_id : option Z) :
  let s' := (action_branches g s action_type field_id).1.1 in
  (playerName s' = playerName s ∧ region s' = region s ∧
   region_info s' = region_info s ∧ currency s' = currency s ∧
   livestock s' = livestock s ∧ active_quests s' = active_quests s ∧
   nasa_data s' = nasa_data s) ∧
  (id <$> fields s' = id <$> fields s ∧ health <$> fields s' = health <$> fields s) ∧
  (balance s' = balance s ∨
   action_type = Some "water" ∧ balance s' = balance s - 100) ∧
  (action_type ≠ Some "next_day" →
     current_day s' = current_day s ∧ market_prices s' = market_prices s ∧
     (action_branches g s action_type field_id).1.2 = g) ∧
  (action_type ≠ Some "plant" → action_type ≠ Some "harvest" →
     inventory s' = inventory s).
Proof.
  simpl. split; [apply action_branches_static |]. split.
  - pose proof (action_branches_field_change g s action_type field_id) as H2.
    split; (eapply Forall2_fmap_eq; [| exact H2]);
      intros f f' Hch; by apply field_change_frame in Hch as [? ?].
  - split; [apply action_branches_balance |].
    split; [apply action_branches_time | apply action_branches_inventory].
Qed.

(** ** More invariants of saved games *)

Lemma action_branches_Forall (P Q : Field → Prop) g s action_type field_id :
  Forall P (fields s) →
  (∀ f f', P f → field_change f f' → Q f') →
  Forall Q (fields (action_branches g s action_type field_id).1.1).
Proof.
  intros HP Hstep.
  eapply Forall2_Forall_r; [apply action_branches_field_change |].
  eapply Forall_impl; [exact HP |]. intros f Hf f' Hch. by eapply Hstep.
Qed.

Lemma field_change_stage f f' :
  field_inv f →
  (status f = "Growing" → 0 ≤ growth_stage f < 5) ∧
  (status f = "Ready to Harvest" → growth_stage f = 5) →
  field_change f f' →
  (status f' = "Growing" → 0 ≤ growth_stage f' < 5) ∧
  (status f' = "Ready to Harvest" → growth_stage f' = 5).
Proof.
  intros Hinv [Hgrow Hready] [-> | [-> | [[_ ->] | [-> | [_ ->]]]]]; try done.
  rewrite advance_field_eq. destruct (is_growing f) eqn:Hg; [| done].
  apply is_growing_spec in Hg as [_ Hst].
  rewrite (field_inv_catalog f Hinv), catalog_Maize by (rewrite Hst; discriminate).
  specialize (Hgrow Hst). cbn [growth_time].
  assert (growth_stage f ≤ grown_stage f ≤ growth_stage f + 1) as Hstep.
  { unfold grown_stage. destruct (PrimFloat.ltb _ _); lia. }
  destruct (5 <=? grown_stage f) eqn:Hle; simpl.
  - apply Z.leb_le in Hle. split; [discriminate | intros _; lia].
  - apply Z.leb_gt in Hle. rewrite Hst. split; [intros _; lia | discriminate].
Qed.

Lemma reachable_stage s :
  reachable s →
  Forall (λ f, (status f = "Growing" → 0 ≤ growth_stage f < 5) ∧
               (status f = "Ready to Harvest" → growth_stage f = 5)) (fields s).
Proof.
  induction 1 as [player_name region_name g _ | s d _ IH | s g a fid Hr IH].
  - simpl. repeat constructor; simpl; discriminate.
  - done.
  - apply (action_branches_Forall
             (λ f, field_inv f ∧
                   ((status f = "Growing" → 0 ≤ growth_stage f < 5) ∧
                    (status f = "Ready to Harvest" → growth_stage f = 5)))).
    + apply Forall_and. split; [by apply reachable_inv | done].
    + intros f f' [Hinv Hst] Hch. by apply (field_change_stage f f').
Qed.

(** X4: in every saved game a Fallow field has growth_stage 0, a Growing
    field a growth_stage from 0 to 4, and a field that is Ready to Harvest
    has growth_stage exactly 5: once ready, a crop gains no further stage,
    however many days pass. *)
Theorem growth_stage_bounds (s : PlayerState) (f : Field) :
  reachable s → f ∈ fields s →
  (status f = "Fallow" ∧ growth_stage f = 0) ∨
  (status f = "Growing" ∧ 0 ≤ growth_stage f < 5) ∨
  (status f = "Ready to Harvest" ∧ growth_stage f = 5).
Proof.
  intros Hr Hf. pose proof (reachable_stage s Hr) as Hst.
  pose proof (reachable_inv s Hr) as Hinv. unfold state_inv in Hinv.
  rewrite Forall_forall in Hst, Hinv.
  destruct (Hst f Hf) as [Hgrow Hready].
  destruct (Hinv f Hf) as [_ [(Hfa & _ & H0) | ([Hg | Hrd] & _)]]; auto.
Qed.

Lemma growth_stage_bounds_witness :
  (status ripe_field = "Fallow" ∧ growth_stage ripe_field = 0) ∨
  (status ripe_field = "Growing" ∧ 0 ≤ growth_stage ripe_field < 5) ∨
  (status ripe_field = "Ready to Harvest" ∧ growth_stage ripe_field = 5).
Proof.
  apply (growth_stage_bounds ripe_farm ripe_field ripe_farm_reachable).
  apply list_elem_of_In. vm_compute. left. reflexivity.
Defined.

(** X5: in every saved game the fields are exactly two, with ids 1 and 2
    and health 100; the livestock group and the single quest, with its id,
    title, both texts naming the game's region, and its incomplete flag,
    are as the initializer made them; the currency is TZS and the region
    record is the catalog's entry for the region; the day is at least 1;
    market_prices holds the single item "Harvested Maize" at a price
    between 500 and 800; and the balance is 50000 minus a non-negative
    multiple of 100, so never above 50000. *)
Theorem saved_game_shape (s : PlayerState) :
  reachable s →
  id <$> fields s = [1; 2] ∧ health <$> fields s = [100; 100] ∧
  livestock s = [{| ls_type := "Goats"; ls_count := 5; ls_health := 90;
                    ls_feed_level := 0.7%float |}] ∧
  active_quests s =
    [{| quest_id := "main_quest_1";
        title := "Your First Farm";
        description := "Welcome to your farm in " +:+ region s +:+
          "! Let's get started by planting some maize. Select Field 1 and choose 'Plant'.";
        learning_point :=
          "Choosing the right crop for your region is key to success. "
          +:+ region s +:+ " is excellent for this.";
        is_complete := false |}] ∧
  currency s = "TZS" ∧
  region_info s = REGIONS !! region s ∧ is_Some (region_info s) ∧
  1 ≤ current_day s ∧
  (∃ price, market_prices s = [("Harvested Maize", price)] ∧ 500 ≤ price ≤ 800) ∧
  (∃ waterings, 0 ≤ waterings ∧ balance s = 50000 - 100 * waterings).
Proof.
  induction 1 as [player_name region_name g Hreg | s d _ IH | s g a fid Hr IH].
  - simpl. do 4 (split; [reflexivity |]).
    do 2 (split; [reflexivity |]). split; [done |]. split; [done |]. split.
    + eexists. split; [reflexivity |]. apply (randint_range 500 800 g). lia.
    + exists 0. done.
  - done.
  - destruct IH as (Hid & Hh & Hl & Hq & Hc & Hri & Hsome & Hday & Hmp & Hbal).
    destruct (action_branches_static g s a fid) as (_ & Hreg' & Hri' & Hc' & Hl' & Hq' & _).
    pose proof (action_branches_field_change g s a fid) as H2.
    rewrite Hreg', Hri', Hc', Hl', Hq'.
    split.
    { rewrite <- Hid. eapply Forall2_fmap_eq; [| exact H2].
      intros f f' Hch. by apply field_change_frame in Hch as [? ?]. }
    split.
    { rewrite <- Hh. eapply Forall2_fmap_eq; [| exact H2].
      intros f f' Hch. by apply field_change_frame in Hch as [? ?]. }
    do 5 (split; [done |]).
    split; [| split].
    + destruct (decide (a = Some "next_day")) as [-> | Hn].
      * rewrite action_branches_next_day. simpl.
        destruct (advance_day_frame g s) as (-> & _). lia.
      * destruct (action_branches_time g s a fid Hn) as (-> & _). done.
    + destruct (decide (a = Some "next_day")) as [-> | Hn].
      * rewrite action_branches_next_day. simpl.
        destruct (advance_day_frame g s) as (_ & Hk & Hrange & _).
        destruct Hmp as (p & Hp & _). rewrite Hp in Hk.
        destruct (market_prices (advance_day g s).1.1) as [|[k v] [|? ?]];
          try discriminate.
        injection Hk as ->. exists v. split; [done |].
        by apply Forall_cons_1 in Hrange as [? _].
      * destruct (action_branches_time g s a fid Hn) as (_ & -> & _). done.
    + destruct Hbal as (k & Hk & Hb).
      destruct (action_branches_balance g s a fid) as [-> | [_ ->]].
      * by exists k.
      * exists (k + 1). split; lia.
Qed.

Lemma saved_game_shape_witness :
  id <$> fields ripe_farm = [1; 2] ∧ current_day ripe_farm = 6 ∧
  balance ripe_farm = 49600.
Proof.
  destruct (saved_game_shape ripe_farm ripe_farm_reachable) as (Hid & _).
  split; [exact Hid |]. split; reflexivity.
Defined.

Lemma planted_insert fs i f f' :
  fs !! i = Some f → planted (<[i := f']> fs) = planted fs - occupied f + occupied f'.
Proof.
  revert i. induction fs as [|a fs IH]; intros [|i] Hi; simpl in *; try discriminate.
  - injection Hi as ->. unfold planted. lia.
  - fold (planted (<[i := f']> fs)). fold (planted fs). rewrite (IH i Hi). lia.
Qed.

Lemma planted_advance_fields fs : planted (advance_fields fs).1 = planted fs.
Proof.
  pose proof (advance_fields_Forall2 fs) as H2.
  induction H2 as [|f f' fs fs' Hch _ IH]; [done |].
  simpl. fold (planted fs'). fold (planted fs). rewrite IH. f_equal.
  destruct Hch as [-> | ->]; [done |]. unfold occupied.
  destruct (advance_field_frame f) as (_ & _ & _ & [-> | [Hg ->]] & _); [done |].
  by rewrite Hg.
Qed.

Lemma planted_nonneg fs : 0 ≤ planted fs.
Proof.
  induction fs as [|a fs IH]; simpl; [done |]. fold (planted fs).
  unfold occupied. destruct (String.eqb _ _); lia.
Qed.

(** The inventory of a saved game, and the count that ties it to the
    fields. *)
Lemma reachable_stock s :
  reachable s →
  ∃ seeds harvested,
    inventory s = <["Maize Seed" := seeds]> (<["Fertilizer" := 5]>
                  (<["Goat Feed" := 20]> (<["Harvested Maize" := harvested]> ∅))) ∧
    0 ≤ seeds ∧ 0 ≤ harvested ∧
    10 * seeds + 10 * planted (fields s) + harvested = 100.
Proof.
  induction 1 as [player_name region_name g _ | s d _ IH | s g a fid Hr IH].
  - exists 10, 0. done.
  - done.
  - destruct IH as (seeds & harvested & Hinv & Hs & Hh & Hsum).
    pose proof (reachable_inv s Hr) as Hfinv. unfold state_inv in Hfinv.
    rewrite Forall_forall in Hfinv.
    unfold action_branches.
    destruct (is_action a "next_day").
    { pose proof (advance_day_fields g s) as Hf.
      destruct (advance_day_frame g s) as (_ & _ & _ & _ & _ & Hi & _).
      destruct (advance_day g s) as [[s' g'] [e|]]; simpl in *;
        exists seeds, harvested; rewrite Hi, Hf, planted_advance_fields; done. }
    destruct (is_action a "plant").
    { unfold plant. change ("Maize" +:+ " Seed") with "Maize Seed".
      destruct (0 <? _) eqn:Hpos; [| by exists seeds, harvested].
      destruct (first_field _ _) as [[i f]|] eqn:Hff; [| by exists seeds, harvested].
      apply first_field_Some in Hff as (Hi & Hp & _).
      apply id_status_spec in Hp as [_ Hst]. simpl.
      rewrite Hinv in Hpos |- *. rewrite lookup_insert_eq in Hpos |- *.
      simpl in Hpos |- *. apply Z.ltb_lt in Hpos.
      exists (seeds - 1), harvested. rewrite insert_insert_eq.
      split; [done |]. split; [lia |]. split; [done |].
      rewrite (planted_insert _ i f _ Hi). unfold occupied. simpl. rewrite Hst.
      simpl. lia. }
    destruct (is_action a "water").
    { unfold water. destruct (first_field _ _) as [[i f]|] eqn:Hff;
        [| by exists seeds, harvested].
      apply first_field_Some in Hff as (Hi & _ & _). simpl.
      exists seeds, harvested. do 3 (split; [done |]).
      rewrite (planted_insert _ i f _ Hi). unfold occupied. simpl. lia. }
    destruct (is_action a "harvest").
    { unfold harvest. destruct (first_field _ _) as [[i f]|] eqn:Hff;
        [| by exists seeds, harvested].
      apply first_field_Some in Hff as (Hi & Hp & _).
      apply id_status_spec in Hp as [_ Hst].
      rewrite (field_inv_catalog f) by
        (first [ apply Hfinv; by eapply list_elem_of_lookup_2
               | rewrite Hst; discriminate ]).
      change (CROP_DATA !! "Maize") with (Some {| growth_time := 5; yield := 10 |}).
      change ("Harvested " +:+ "Maize") with "Harvested Maize". simpl.
      exists seeds, (harvested + 10).
      split.
      { rewrite Hinv. apply map_eq. intros k.
        rewrite !lookup_insert. repeat case_decide; subst; try done. }
      split; [done |]. split; [lia |].
      rewrite (planted_insert _ i f _ Hi). unfold occupied. simpl. rewrite Hst.
      simpl. lia. }
    by exists seeds, harvested.
Qed.

(** X6: in every saved game the inventory has exactly the four items of
    the initializer; Fertilizer stays 5 and Goat Feed 20; the seed and
    harvest counts are never negative, and ten times the seeds left, plus
    ten per field holding a crop, plus the harvested maize is always 100:
    a seed is the only way to a harvest of 10, no action adds seed, and at
    most 100 maize can ever be harvested. *)
Theorem seed_and_harvest_conservation (s : PlayerState) :
  reachable s →
  dom (inventory s)
    = ({[ "Maize Seed"; "Fertilizer"; "Goat Feed"; "Harvested Maize" ]} : gset string) ∧
  inventory s !! "Fertilizer" = Some 5 ∧ inventory s !! "Goat Feed" = Some 20 ∧
  ∃ seeds harvested,
    inventory s !! "Maize Seed" = Some seeds ∧
    inventory s !! "Harvested Maize" = Some harvested ∧
    0 ≤ seeds ≤ 10 ∧ 0 ≤ harvested ≤ 100 ∧
    10 * seeds + 10 * planted (fields s) + harvested = 100.
Proof.
  intros Hr. destruct (reachable_stock s Hr) as (seeds & harvested & -> & Hs & Hh & Hsum).
  pose proof (planted_nonneg (fields s)) as Hp.
  split; [rewrite !dom_insert_L, dom_empty_L; set_solver |].
  do 2 (split; [done |]). exists seeds, harvested.
  do 2 (split; [done |]). lia.
Qed.

Lemma seed_and_harvest_conservation_witness :
  ∃ seeds harvested,
    inventory ripe_farm !! "Maize Seed" = Some seeds ∧
    inventory ripe_farm !! "Harvested Maize" = Some harvested ∧
    0 ≤ seeds ≤ 10 ∧ 0 ≤ harvested ≤ 100 ∧
    10 * seeds + 10 * planted (fields ripe_farm) + harvested = 100.
Proof.
  exact (proj2 (proj2 (proj2
    (seed_and_harvest_conservation ripe_farm ripe_farm_reachable)))).
Defined.

(** ** Water and growth over several days *)

Lemma water_levels_stay_dry w :
  In w water_levels →
  PrimFloat.ltb 0.4%float w = false →
  PrimFloat.ltb 0.4%float (max0 (PrimFloat.sub w 0.2%float)) = false.
Proof.
  unfold water_levels. simpl. intros H.
  repeat (destruct H as [<- | H];
          [intros Hd; first [reflexivity | vm_compute in Hd; discriminate Hd] |]).
  contradiction.
Qed.

Lemma water_levels_decay_le w :
  In w water_levels →
  PrimFloat.leb w w = true ∧
  PrimFloat.leb (max0 (PrimFloat.sub w 0.2%float)) w = true.
Proof.
  unfold water_levels. simpl. intros H.
  repeat (destruct H as [<- | H]; [split; reflexivity |]). contradiction.
Qed.

Lemma advance_day_reachable g s : reachable s → reachable (advance_day g s).1.1.
Proof.
  intros Hr. pose proof (reach_action s g (Some "next_day") None Hr) as H.
  by rewrite action_branches_next_day in H.
Qed.

Lemma advance_day_reachable_fields g s :
  reachable s →
  fields (advance_day g s).1.1 = (λ f, (advance_field f).1) <$> fields s.
Proof.
  intros Hr. rewrite advance_day_fields.
  by rewrite (advance_fields_known _ (field_inv_known _ (reachable_inv s Hr))).
Qed.

(** X7: in a saved game, a Growing field whose water_level is not above
    0.4 makes no progress however many days pass without watering: after
    any number of calls of [advance_day] it is still Growing, with the same
    crop and growth_stage and a water_level still not above 0.4. *)
Theorem unwatered_crop_stalls (n : nat) (g : rng) (s : PlayerState) (i : nat) (f : Field) :
  reachable s →
  fields s !! i = Some f →
  status f = "Growing" →
  PrimFloat.ltb 0.4%float (water_level f) = false →
  ∃ f', fields (next_days g n s).1 !! i = Some f' ∧
        status f' = "Growing" ∧ crop f' = crop f ∧
        growth_stage f' = growth_stage f ∧
        PrimFloat.ltb 0.4%float (water_level f') = false.
Proof.
  revert g s f. induction n as [|n IH]; intros g s f Hr Hi Hst Hdry; simpl.
  - by exists f.
  - pose proof (advance_day_reachable g s Hr) as Hr'.
    pose proof (advance_day_reachable_fields g s Hr) as Hf.
    destruct (advance_day g s) as [[s1 g1] r]. simpl in Hr', Hf.
    pose proof (reachable_inv s Hr) as Hinv. unfold state_inv in Hinv.
    pose proof (reachable_stage s Hr) as Hstage.
    rewrite Forall_forall in Hinv, Hstage.
    assert (f ∈ fields s) as Hin by by eapply list_elem_of_lookup_2.
    destruct (Hinv f Hin) as [Hw _]. destruct (Hstage f Hin) as [Hlt _].
    specialize (Hlt Hst).
    assert (crop f = Some "Maize") as Hc.
    { apply field_inv_catalog; [by apply Hinv |]. rewrite Hst. discriminate. }
    assert ((advance_field f).1
            = set_water_level (max0 (PrimFloat.sub (water_level f) 0.2%float)) f) as Hadv.
    { rewrite advance_field_eq.
      rewrite (proj2 (is_growing_spec f)) by (by rewrite Hc).
      rewrite Hc, catalog_Maize. unfold grown_stage. rewrite Hdry. cbn [growth_time].
      destruct (5 <=? growth_stage f) eqn:Hle; [apply Z.leb_le in Hle; lia |].
      simpl. by destruct f. }
    destruct (IH g1 s1 (set_water_level (max0 (PrimFloat.sub (water_level f) 0.2%float)) f))
      as (f' & Hi' & Hst' & Hc' & Hg' & Hd'); try done.
    + by rewrite Hf, list_lookup_fmap, Hi, <- Hadv.
    + simpl. by apply water_levels_stay_dry.
    + by exists f'.
Qed.

Lemma dry_farm_reachable : reachable dry_farm.
Proof. by repeat apply play_reachable; apply fresh_farm_reachable. Qed.

Lemma unwatered_crop_stalls_witness :
  ∃ f', fields (next_days (λ _, 7) 30 dry_farm).1 !! 0%nat = Some f' ∧
        status f' = "Growing" ∧ crop f' = Some "Maize" ∧
        growth_stage f' = 1 ∧
        PrimFloat.ltb 0.4%float (water_level f') = false.
Proof.
  refine (unwatered_crop_stalls 30 (λ _, 7) dry_farm 0
            {| id := 1; crop := Some "Maize"; status := "Growing";
               water_level := 0.099999999999999978%float; growth_stage := 1;
               health := 100 |} dry_farm_reachable _ _ _); reflexivity.
Defined.

(** X8: in a saved game no field gains water when a day passes: after
    [advance_day] every field's water_level is at most what it was. *)
Theorem advance_day_never_adds_water (g : rng) (s : PlayerState) (i : nat) (f : Field) :
  reachable s →
  fields s !! i = Some f →
  ∃ f', fields (advance_day g s).1.1 !! i = Some f' ∧
        PrimFloat.leb (water_level f') (water_level f) = true.
Proof.
  intros Hr Hi. rewrite (advance_day_reachable_fields g s Hr).
  exists (advance_field f).1. split; [by rewrite list_lookup_fmap, Hi |].
  pose proof (reachable_inv s Hr) as Hinv. unfold state_inv in Hinv.
  rewrite Forall_forall in Hinv.
  destruct (Hinv f) as [Hw _]; [by eapply list_elem_of_lookup_2 |].
  apply water_levels_decay_le in Hw as [Hrefl Hle].
  rewrite advance_field_eq. destruct (is_growing f); [| done].
  simpl. destruct (catalog (crop f)) as [info|]; [| done].
  by destruct (growth_time info <=? grown_stage f).
Qed.

Lemma advance_day_never_adds_water_witness :
  ∃ f', fields (advance_day (λ _, 7) planted_farm).1.1 !! 0%nat = Some f' ∧
        PrimFloat.leb (water_level f') 0.5%float = true.
Proof.
  refine (advance_day_never_adds_water (λ _, 7) planted_farm 0
            {| id := 1; crop := Some "Maize"; status := "Growing";
               water_level := 0.5%float; growth_stage := 0; health := 100 |} _ _).
  - by repeat apply play_reachable; apply fresh_farm_reachable.
  - reflexivity.
Defined.

(** ** Exceptions on states outside the invariant *)

Lemma advance_field_raises f e :
  (advance_field f).2 = Some e →
  e = TypeError ∧ is_growing f = true ∧ catalog (crop f) = None ∧
  (advance_field f).1
    = set_water_level (max0 (PrimFloat.sub (water_level f) 0.2%float))
        (set_growth_stage (grown_stage f) f).
Proof.
  rewrite advance_field_eq. destruct (is_growing f); [| discriminate]. simpl.
  destruct (catalog (crop f)) as [info|].
  - by destruct (growth_time info <=? grown_stage f).
  - by intros [= <-].
Qed.

Lemma advance_field_returns f :
  (advance_field f).2 = None → is_growing f = true → is_Some (catalog (crop f)).
Proof.
  rewrite advance_field_eq. intros H Hg. rewrite Hg in H. simpl in H.
  destruct (catalog (crop f)) as [info|]; [eauto | discriminate].
Qed.

Lemma advance_fields_raise fs e :
  (advance_fields fs).2 = Some e →
  e = TypeError ∧
  ∃ i f,
    fs !! i = Some f ∧ is_growing f = true ∧ catalog (crop f) = None ∧
    (∀ j h, (j < i)%nat → fs !! j = Some h → is_growing h = true →
            is_Some (catalog (crop h))) ∧
    (advance_fields fs).1 !! i
      = Some (set_water_level (max0 (PrimFloat.sub (water_level f) 0.2%float))
                (set_growth_stage (grown_stage f) f)) ∧
    drop (S i) (advance_fields fs).1 = drop (S i) fs.
Proof.
  induction fs as [|a fs IH]; simpl; [discriminate |].
  destruct (advance_field a) as [a' [e'|]] eqn:Ha.
  - simpl. intros [= <-].
    destruct (advance_field_raises a e') as (-> & Hg & Hc & Hres); [by rewrite Ha |].
    rewrite Ha in Hres. simpl in Hres. subst a'.
    split; [done |]. exists 0%nat, a. simpl. repeat split; try done.
    intros j h Hj. lia.
  - destruct (advance_fields fs) as [rest' r]. simpl in *. intros Hr.
    destruct (IH Hr) as (-> & i & f & Hi & Hg & Hc & Hmin & Hi' & Hdrop).
    split; [done |]. exists (S i), f. simpl. repeat split; try done.
    intros [|j] h Hj Hh Hgh; simpl in Hh.
    + injection Hh as <-. apply advance_field_returns; [by rewrite Ha | done].
    + apply (Hmin j h); [lia | done | done].
Qed.

(** X9: when [advance_day] raises, it is the TypeError of subscripting the
    catalog entry that the first Growing field with an unknown crop lacks;
    by then the day has been advanced, that field's growth step and water
    decay have been written, and the fields after it have not been
    visited.  The call is not all-or-nothing. *)
Theorem advance_day_raises_midway (g : rng) (s : PlayerState) (e : exn) :
  (advance_day g s).2 = Some e →
  e = TypeError ∧
  current_day (advance_day g s).1.1 = current_day s + 1 ∧
  ∃ i f,
    fields s !! i = Some f ∧
    truthy (crop f) = true ∧ status f = "Growing" ∧ catalog (crop f) = None ∧
    (∀ j h, (j < i)%nat → fields s !! j = Some h →
            truthy (crop h) = true → status h = "Growing" →
            is_Some (catalog (crop h))) ∧
    fields (advance_day g s).1.1 !! i
      = Some (set_water_level (max0 (PrimFloat.sub (water_level f) 0.2%float))
                (set_growth_stage (grown_stage f) f)) ∧
    drop (S i) (fields (advance_day g s).1.1) = drop (S i) (fields s).
Proof.
  rewrite advance_day_result, advance_day_fields. intros Hr.
  destruct (advance_fields_raise _ _ Hr) as (-> & i & f & Hi & Hg & Hc & Hmin & Hi' & Hd).
  split; [done |]. split; [by destruct (advance_day_frame g s) as (? & _) |].
  apply is_growing_spec in Hg as [Ht Hst].
  exists i, f. do 4 (split; [done |]). split; [| done].
  intros j h Hj Hh Hth Hsh. apply (Hmin j h Hj Hh). by apply is_growing_spec.
Qed.

Lemma advance_day_raises_midway_witness :
  current_day rice_farm = 1 ∧
  current_day (advance_day (λ _, 7) rice_farm).1.1 = 2 ∧
  ∃ i f, fields rice_farm !! i = Some f ∧ catalog (crop f) = None ∧
         drop (S i) (fields (advance_day (λ _, 7) rice_farm).1.1)
           = drop (S i) (fields rice_farm).
Proof.
  split; [reflexivity |].
  destruct (advance_day_raises_midway (λ _, 7) rice_farm TypeError)
    as (_ & Hday & i & f & Hi & _ & _ & Hc & _ & _ & Hd); [reflexivity |].
  split; [exact Hday |]. exists i, f. split; [exact Hi |]. split; [exact Hc | exact Hd].
Defined.

(** X10: the harvest action raises only the KeyError of [CROP_DATA[crop_name]],
    and only when the first Ready to Harvest field with the given id
    carries no crop of the catalog; nothing has been written by then, so
    the state is left exactly as it was. *)
Theorem harvest_raises_before_writing (g : rng) (s : PlayerState) (field_id : option Z)
    (e : exn) :
  (action_branches g s (Some "harvest") field_id).2 = Raise e →
  e = KeyError ∧
  (action_branches g s (Some "harvest") field_id).1 = (s, g) ∧
  ∃ i f,
    fields s !! i = Some f ∧ field_id = Some (id f) ∧
    status f = "Ready to Harvest" ∧ catalog (crop f) = None ∧
    (∀ j h, (j < i)%nat → fields s !! j = Some h →
            ¬ (field_id = Some (id h) ∧ status h = "Ready to Harvest")).
Proof.
  rewrite action_branches_harvest. simpl. unfold harvest.
  destruct (first_field _ (fields s)) as [[i f]|] eqn:Hff; [| discriminate].
  apply first_field_Some in Hff as (Hi & Hp & Hmin).
  apply id_status_spec in Hp as [Hid Hst].
  assert (∀ j h, (j < i)%nat → fields s !! j = Some h →
            ¬ (field_id = Some (id h) ∧ status h = "Ready to Harvest")) as Hfirst.
  { intros j h Hj Hh Hn. specialize (Hmin j h Hj Hh).
    apply id_status_spec in Hn. congruence. }
  destruct (crop f) as [c|] eqn:Hc.
  - destruct (CROP_DATA !! c) eqn:Hcat; [discriminate |].
    simpl. intros [= <-]. do 2 (split; [done |]). exists i, f.
    rewrite Hc. simpl. by rewrite Hcat.
  - simpl. intros [= <-]. do 2 (split; [done |]). exists i, f. by rewrite Hc.
Qed.

Lemma harvest_raises_before_writing_witness :
  (action_branches (λ _, 7) rice_farm (Some "harvest") (Some 3)).2 = Raise KeyError ∧
  (action_branches (λ _, 7) rice_farm (Some "harvest") (Some 3)).1.1 = rice_farm.
Proof.
  assert ((action_branches (λ _, 7) rice_farm (Some "harvest") (Some 3)).2 = Raise KeyError)
    as Hr by reflexivity.
  split; [exact Hr |].
  destruct (harvest_raises_before_writing (λ _, 7) rice_farm (Some 3) KeyError Hr)
    as (_ & Heq & _).
  by rewrite Heq.
Defined.

(** ** More on perform_action *)

(** The store after a dispatch that found its player. *)
Lemma perform_action_store g saves req name s :
  saved_player saves req = Some (name, s) →
  (perform_action g saves req).1.1
    = <[name := (action_with_params g s (req_action req) (req_params req)).1.1]> saves.
Proof.
  intros Hsp. rewrite perform_action_hashable.
  - unfold dispatch_saved. rewrite Hsp.
    destruct (action_with_params g s (req_action req) (req_params req)) as [[s' g'] r].
    destruct r as [[|] message | e]; simpl; [| done | done].
    by rewrite insert_insert_eq.
  - intros Hc. apply saved_player_Some in Hsp as (Hn & _).
    unfold req_playerName in Hn. by rewrite Hc in Hn.
Qed.

Lemma saved_player_container saves req :
  req_name req = NameContainer → saved_player saves req = None.
Proof. intros Hc. unfold saved_player, req_playerName. by rewrite Hc. Qed.

(** X11: a dispatch through [perform_action], whatever its outcome, never
    adds or removes a player and never touches the saved state of any
    player other than the one the request names. *)
Theorem perform_action_isolation (g : rng) (saves : gmap string PlayerState)
    (req : Request) :
  dom (perform_action g saves req).1.1 = dom saves ∧
  ∀ other, req_playerName req ≠ Some other →
           (perform_action g saves req).1.1 !! other = saves !! other.
Proof.
  destruct (saved_player saves req) as [[name s]|] eqn:Hsp.
  - rewrite (perform_action_store g saves req name s Hsp).
    apply saved_player_Some in Hsp as (Hn & _ & Hs). split.
    + apply dom_insert_lookup_L. by rewrite Hs.
    + intros other Ho. apply lookup_insert_ne. congruence.
  - destruct (req_name_container req) as [Hc | Hc].
    + by rewrite perform_action_container.
    + rewrite perform_action_hashable by done. unfold dispatch_saved.
      by rewrite Hsp.
Qed.

(** X12: a success response of [perform_action] carries exactly the state
    that is then saved under the player's name: the state the chosen
    branch produced from the saved one, with every other entry of the
    store as before. *)
Theorem perform_action_success_saved (g : rng) (saves : gmap string PlayerState)
    (req : Request) (saves' : gmap string PlayerState) (g' : rng) (resp : Response) :
  perform_action g saves req = (saves', g', Returned resp) →
  code resp = 200 →
  ∃ name s s',
    req_playerName req = Some name ∧ saves !! name = Some s ∧
    action_branches g s (req_action req) (req_field_id req)
      = (s', g', Done true (resp_message resp)) ∧
    resp_status resp = "success" ∧ new_state resp = Some s' ∧
    saves' !! name = Some s' ∧ saves' = <[name := s']> saves.
Proof.
  destruct (req_name_container req) as [Hc | Hc].
  { by rewrite perform_action_container. }
  rewrite perform_action_hashable by done. unfold dispatch_saved.
  destruct (saved_player saves req) as [[name s]|] eqn:Hsp;
    [| intros [= _ _ <-]; discriminate].
  apply saved_player_Some in Hsp as (Hn & _ & Hs).
  destruct (action_with_params_eq g s req) as [-> | [_ ->]]; [| discriminate].
  destruct (action_branches g s (req_action req) (req_field_id req))
    as [[s1 g1] r] eqn:Hab.
  destruct r as [[|] message | e]; [| intros [= _ _ <-]; discriminate | discriminate].
  intros [= <- <- <-] _. exists name, s, s1. simpl.
  rewrite insert_insert_eq, lookup_insert_eq. done.
Qed.

Lemma perform_action_success_saved_witness :
  ∃ s', (perform_action (λ _, 7) one_save
           {| req_name := NameString "Amina"; req_action := Some "harvest";
              req_params := ParamsObject (Some 1) |}).1.1 !! "Amina" = Some s' ∧
        inventory s' !! "Harvested Maize" = Some 10.
Proof.
  destruct (perform_action (λ _, 7) one_save
              {| req_name := NameString "Amina"; req_action := Some "harvest";
                 req_params := ParamsObject (Some 1) |}) as [[saves' g'] [resp|e]] eqn:Heq;
    [| vm_compute in Heq; discriminate Heq].
  assert (code resp = 200) as Hcode.
  { vm_compute in Heq. injection Heq as _ _ <-. reflexivity. }
  destruct (perform_action_success_saved _ _ _ _ _ _ Heq Hcode)
    as (name & s & s' & Hn & Hs & Hab & _ & _ & Hl & _).
  injection Hn as <-. exists s'. split; [exact Hl |].
  unfold one_save in Hs. apply lookup_singleton_Some in Hs as [_ <-].
  vm_compute in Hab. injection Hab as <- _ _. reflexivity.
Defined.

(** X13: a request of a saved player whose action is none of next_day,
    plant, water and harvest, or is absent, is answered 400 with the
    message "Action not recognized."; the store and the random generator
    are left as they were. *)
Theorem unrecognized_action (g : rng) (saves : gmap string PlayerState) (req : Request)
    (name : string) (s : PlayerState) :
  req_playerName req = Some name → name ≠ EmptyString → saves !! name = Some s →
  req_action req ≠ Some "next_day" → req_action req ≠ Some "plant" →
  req_action req ≠ Some "water" → req_action req ≠ Some "harvest" →
  perform_action g saves req
    = (saves, g, Returned {| code := 400; resp_status := "error";
                             resp_message := "Action not recognized.";
                             new_state := None |}).
Proof.
  intros Hn Hne Hs H1 H2 H3 H4.
  apply is_action_false in H1, H2, H3, H4.
  rewrite perform_action_hashable.
  - unfold dispatch_saved.
    rewrite (proj2 (saved_player_Some saves req name s)) by done.
    unfold action_with_params, action_branches. rewrite H1, H2, H3, H4. simpl.
    unfold not_recognized. by rewrite insert_id.
  - intros Hc. unfold req_playerName in Hn. by rewrite Hc in Hn.
Qed.

Lemma unrecognized_action_witness :
  perform_action (λ _, 7) one_save
    {| req_name := NameString "Amina"; req_action := Some "sell";
       req_params := ParamsOther |}
  = (one_save, (λ _, 7),
     Returned {| code := 400; resp_status := "error";
                 resp_message := "Action not recognized."; new_state := None |}).
Proof.
  apply (unrecognized_action (λ _, 7) one_save _ "Amina" ripe_farm);
    first [reflexivity | discriminate].
Defined.

(** ** The login route and the stores it builds *)

(** The three ways through [create_or_login_player]. *)
Lemma create_or_login_player_cases sampler g saves data :
  ((login_playerName data = None ∨ login_playerName data = Some EmptyString) ∧
   create_or_login_player sampler g saves data
     = (saves, g, {| login_code := 400; login_status := "error";
                     login_message := "Player name is required.";
                     login_state := None |})) ∨
  (∃ name s,
     login_playerName data = Some name ∧ name ≠ EmptyString ∧ saves !! name = Some s ∧
     create_or_login_player sampler g saves data
       = (<[name := set_nasa_data (Some (sampler (region s) g).1) s]> saves,
          (sampler (region s) g).2,
          {| login_code := 200; login_status := "success";
             login_message := "Welcome back, " +:+ name +:+ "!";
             login_state := Some (set_nasa_data (Some (sampler (region s) g).1) s) |})) ∨
  (∃ name,
     login_playerName data = Some name ∧ name ≠ EmptyString ∧ saves !! name = None ∧
     REGIONS !! default "Morogoro" (login_region data) = None ∧
     create_or_login_player sampler g saves data
       = (saves, g, {| login_code := 400; login_status := "error";
                       login_message := "Invalid region selected.";
                       login_state := None |})) ∨
  (∃ name new_state g1,
     login_playerName data = Some name ∧ name ≠ EmptyString ∧ saves !! name = None ∧
     is_Some (REGIONS !! default "Morogoro" (login_region data)) ∧
     initialize_game_state name (default "Morogoro" (login_region data)) g
       = (new_state, g1) ∧
     create_or_login_player sampler g saves data
       = (<[name := set_nasa_data
                      (Some (sampler (default "Morogoro" (login_region data)) g1).1)
                      new_state]> saves,
          (sampler (default "Morogoro" (login_region data)) g1).2,
          {| login_code := 200; login_status := "success";
             login_message := "New farm created for " +:+ name +:+ " in "
                              +:+ default "Morogoro" (login_region data) +:+ "!";
             login_state :=
               Some (set_nasa_data
                       (Some (sampler (default "Morogoro" (login_region data)) g1).1)
                       new_state) |})).
Proof.
  unfold create_or_login_player.
  destruct (login_playerName data) as [name|]; [| left; auto].
  destruct (String.eqb name EmptyString) eqn:Hname.
  { apply String.eqb_eq in Hname as ->. left. auto. }
  apply String.eqb_neq in Hname. right.
  destruct (saves !! name) as [s|] eqn:Hs.
  - left. exists name, s. do 3 (split; [done |]).
    by destruct (sampler (region s) g) as [reading g'].
  - right. destruct (REGIONS !! default "Morogoro" (login_region data)) as [r|] eqn:Hr.
    + right.
      destruct (initialize_game_state name (default "Morogoro" (login_region data)) g)
        as [new_state g1] eqn:Hinit.
      exists name, new_state, g1. do 3 (split; [done |]). split; [by eexists |].
      split; [done |].
      by destruct (sampler (default "Morogoro" (login_region data)) g1) as [reading g2].
    + left. exists name. done.
Qed.


(** X15: a login under a name that is already saved never re-creates the
    farm, whatever region the request carries: it answers 200 with the
    saved state in which only nasa_data has been replaced by a fresh
    reading, stores that state under the name, and leaves every other
    entry and the set of players as they were. *)
Theorem login_keeps_saved_game (sampler : string → rng → NasaData * rng) (g : rng)
    (saves : gmap string PlayerState) (data : PlayerRequest) (name : string)
    (s : PlayerState) :
  login_playerName data = Some name → name ≠ EmptyString → saves !! name = Some s →
  let r := create_or_login_player sampler g saves data in
  login_code r.2 = 200 ∧
  ∃ reading,
    sampler (region s) g = (reading, r.1.2) ∧
    login_state r.2 = Some (set_nasa_data (Some reading) s) ∧
    r.1.1 !! name = Some (set_nasa_data (Some reading) s) ∧
    (∀ other, other ≠ name → r.1.1 !! other = saves !! other) ∧
    dom r.1.1 = dom saves.
Proof.
  intros Hn Hne Hs. simpl.
  destruct (create_or_login_player_cases sampler g saves data)
    as [[Hmiss _] | [(n & s0 & Hn' & _ & Hs' & ->) |
        [(n & Hn' & _ & Hs' & _) | (n & ns & g1 & Hn' & _ & Hs' & _)]]].
  - destruct Hmiss; congruence.
  - assert (n = name) as -> by congruence. assert (s0 = s) as -> by congruence.
    simpl. split; [done |]. exists (sampler (region s) g).1.
    split; [by destruct (sampler (region s) g) |]. split; [done |].
    split; [apply lookup_insert_eq |]. split.
    + intros other Ho. by apply lookup_insert_ne.
    + apply dom_insert_lookup_L. by rewrite Hs.
  - congruence.
  - congruence.
Qed.

Lemma login_keeps_saved_game_witness :
  let r := create_or_login_player fixed_reading (λ _, 7) one_save
             {| login_playerName := Some "Amina"; login_region := Some "Atlantis" |} in
  login_code r.2 = 200 ∧ fields <$> (r.1.1 !! "Amina") = Some (fields ripe_farm).
Proof.
  destruct (login_keeps_saved_game fixed_reading (λ _, 7) one_save
              {| login_playerName := Some "Amina"; login_region := Some "Atlantis" |}
              "Amina" ripe_farm eq_refl ltac:(discriminate) eq_refl)
    as (Hcode & reading & _ & _ & Hl & _).
  split; [exact Hcode |]. rewrite Hl. reflexivity.
Defined.

(** X16: a login under a new, non-empty name with a region of the Region
    Catalog (or with none, which means "Morogoro") answers 200 and adds
    exactly one entry to the store: under that name, the state
    [initialize_game_state] builds for the name and region, with a reading
    in nasa_data.  Every other entry is left as it was. *)
Theorem login_creates_farm (sampler : string → rng → NasaData * rng) (g : rng)
    (saves : gmap string PlayerState) (data : PlayerRequest) (name : string) :
  login_playerName data = Some name → name ≠ EmptyString → saves !! name = None →
  is_Some (REGIONS !! default "Morogoro" (login_region data)) →
  let r := create_or_login_player sampler g saves data in
  login_code r.2 = 200 ∧
  ∃ s' reading,
    login_state r.2 = Some s' ∧ r.1.1 !! name = Some s' ∧
    s' = set_nasa_data (Some reading)
           (initialize_game_state name (default "Morogoro" (login_region data)) g).1 ∧
    playerName s' = name ∧ region s' = default "Morogoro" (login_region data) ∧
    reachable s' ∧
    (∀ other, other ≠ name → r.1.1 !! other = saves !! other) ∧
    dom r.1.1 = {[ name ]} ∪ dom saves.
Proof.
  intros Hn Hne Hs Hr. simpl.
  destruct (create_or_login_player_cases sampler g saves data)
    as [[Hmiss _] | [(n & s0 & Hn' & _ & Hs' & _) |
        [(n & Hn' & _ & _ & Hr' & _) | (n & ns & g1 & Hn' & _ & _ & _ & Hinit & ->)]]].
  - destruct Hmiss; congruence.
  - congruence.
  - rewrite Hr' in Hr. by destruct Hr.
  - assert (n = name) as -> by congruence.
    assert (ns = (initialize_game_state name
                    (default "Morogoro" (login_region data)) g).1) as ->
      by by rewrite Hinit.
    cbn [fst snd login_code login_state]. split; [done |].
    eexists _, _. split; [reflexivity |]. split; [apply lookup_insert_eq |].
    do 3 (split; [reflexivity |]). split.
    + apply reach_login. by apply reach_init.
    + split; [intros other Ho; by apply lookup_insert_ne | apply dom_insert_L].
Qed.

Lemma login_creates_farm_witness :
  let r := create_or_login_player fixed_reading (λ _, 7) one_save
             {| login_playerName := Some "Baraka"; login_region := None |} in
  login_code r.2 = 200 ∧
  region <$> (r.1.1 !! "Baraka") = Some "Morogoro" ∧
  r.1.1 !! "Amina" = Some ripe_farm.
Proof.
  destruct (login_creates_farm fixed_reading (λ _, 7) one_save
              {| login_playerName := Some "Baraka"; login_region := None |}
              "Baraka" eq_refl ltac:(discriminate) eq_refl ltac:(by eexists))
    as (Hcode & s' & reading & _ & Hl & _ & _ & Hreg & _ & Hother & _).
  split; [exact Hcode |]. split.
  - rewrite Hl. cbn [fmap option_fmap option_map]. by rewrite Hreg.
  - rewrite Hother by discriminate. reflexivity.
Defined.

Lemma store_reachable_entries sampler saves :
  store_reachable sampler saves →
  ∀ name s, saves !! name = Some s →
            reachable s ∧ playerName s = name ∧ name ≠ EmptyString.
Proof.
  induction 1 as [| g saves data _ IH | g saves req _ IH]; intros name s.
  - by rewrite lookup_empty.
  - destruct (create_or_login_player_cases sampler g saves data)
      as [[_ ->] | [(n & s0 & _ & Hne & Hs0 & ->) |
          [(n & _ & _ & _ & _ & ->) | (n & ns & g1 & _ & Hne & _ & Hr & Hinit & ->)]]];
      simpl; try apply IH.
    + destruct (decide (n = name)) as [-> | Hd].
      * rewrite lookup_insert_eq. intros [= <-].
        destruct (IH name s0 Hs0) as (Hr & Hp & _).
        split; [by apply reach_login | done].
      * rewrite lookup_insert_ne by done. apply IH.
    + destruct (decide (n = name)) as [-> | Hd].
      * rewrite lookup_insert_eq. intros [= <-].
        assert (ns = (initialize_game_state name
                        (default "Morogoro" (login_region data)) g).1) as ->
          by by rewrite Hinit.
        split; [apply reach_login; by apply reach_init | done].
      * rewrite lookup_insert_ne by done. apply IH.
  - destruct (saved_player saves req) as [[n s0]|] eqn:Hsp.
    + rewrite (perform_action_store g saves req n s0 Hsp).
      apply saved_player_Some in Hsp as (_ & Hne & Hs0).
      destruct (decide (n = name)) as [-> | Hd].
      * rewrite lookup_insert_eq. intros [= <-].
        destruct (IH name s0 Hs0) as (Hr & Hp & _).
        destruct (action_with_params_eq g s0 req) as [-> | [_ ->]]; [| done].
        split; [by apply reach_action |].
        destruct (action_branches_static g s0 (req_action req) (req_field_id req))
          as (-> & _). done.
      * rewrite lookup_insert_ne by done. apply IH.
    + destruct (req_name_container req) as [Hc | Hc].
      * rewrite perform_action_container by done. apply IH.
      * rewrite perform_action_hashable by done. unfold dispatch_saved.
        rewrite Hsp. simpl. apply IH.
Qed.

(** X17: in every store that the two routes can build from the empty one,
    each entry is a state reachable from [initialize_game_state], saved
    under the non-empty name it carries in playerName.  On such a store a
    dispatch through [perform_action] returns a response whenever the
    name can be hashed and [params] can be asked; the only exceptions it
    raises are the TypeError of a name that cannot be hashed and the
    AttributeError of a [params] without [get], and either leaves the
    store and the random generator as they were. *)
Theorem routes_keep_store_sound (sampler : string → rng → NasaData * rng)
    (saves : gmap string PlayerState) :
  store_reachable sampler saves →
  (∀ name s, saves !! name = Some s →
             reachable s ∧ playerName s = name ∧ name ≠ EmptyString) ∧
  (∀ g req, req_name req ≠ NameContainer → req_params req ≠ ParamsOther →
            ∃ resp, (perform_action g saves req).2 = Returned resp) ∧
  (∀ g req e, (perform_action g saves req).2 = Raised e →
              (perform_action g saves req).1 = (saves, g) ∧
              ((e = TypeError ∧ req_name req = NameContainer) ∨
               (e = AttributeError ∧ req_params req = ParamsOther))).
Proof.
  intros Hst. pose proof (store_reachable_entries sampler saves Hst) as Hentries.
  split; [exact Hentries |].
  assert (∀ g req, req_name req ≠ NameContainer →
            (∃ resp, (perform_action g saves req).2 = Returned resp) ∨
            (req_params req = ParamsOther ∧
             perform_action g saves req = (saves, g, Raised AttributeError))) as Hcases.
  { intros g req Hc. rewrite perform_action_hashable by done. unfold dispatch_saved.
    destruct (saved_player saves req) as [[n s0]|] eqn:Hsp; [| left; by eexists].
    apply saved_player_Some in Hsp as (_ & _ & Hs0).
    destruct (Hentries n s0 Hs0) as (Hr & _).
    destruct (action_with_params_eq g s0 req) as [-> | [Hp ->]].
    - left.
      destruct (action_branches_returns g s0 (req_action req) (req_field_id req)
                  (reachable_inv s0 Hr)) as (success & message & Hres).
      destruct (action_branches g s0 (req_action req) (req_field_id req))
        as [[s' g'] r].
      simpl in Hres. subst r. destruct success; by eexists.
    - right. split; [done |]. simpl. by rewrite insert_id. }
  split.
  - intros g req Hc Hp. destruct (Hcases g req Hc) as [H | [H _]]; done.
  - intros g req e He. destruct (req_name_container req) as [Hc | Hc].
    + rewrite perform_action_container in He |- * by done.
      injection He as <-. auto.
    + destruct (Hcases g req Hc) as [[resp Hresp] | [Hp Heq]].
      * rewrite Hresp in He. discriminate.
      * rewrite Heq in He |- *. injection He as <-. auto.
Qed.

Lemma routes_keep_store_sound_witness :
  let saves := (create_or_login_player fixed_reading (λ _, 7) ∅
                  {| login_playerName := Some "Amina"; login_region := None |}).1.1 in
  (∀ name s, saves !! name = Some s →
             reachable s ∧ playerName s = name ∧ name ≠ EmptyString) ∧
  (∃ resp, (perform_action (λ _, 7) saves plant_request).2 = Returned resp) ∧
  (perform_action (λ _, 7) saves null_params_request).1.1 = saves ∧
  (perform_action (λ _, 7) saves list_name_request).1.1 = saves.
Proof.
  intros saves.
  destruct (routes_keep_store_sound fixed_reading saves) as (Hentries & Hret & Hraise).
  { apply store_login, store_empty. }
  split; [exact Hentries |]. split; [| split].
  - apply Hret; discriminate.
  - destruct (Hraise (λ _, 7) null_params_request AttributeError) as [Heq _];
      [reflexivity |]. by rewrite Heq.
  - destruct (Hraise (λ _, 7) list_name_request TypeError) as [Heq _];
      [reflexivity |]. by rewrite Heq.
Defined.
